(** * go-cleanarch: the layer classifier and the import rule engine

    A shallow embedding of [cleanarch/cleanarch.go] and the properties of
    its classifier ([ParseLayerMetadata]), its memoised lookup
    ([fileMetadata]), its decision rule ([validateImport]) and its driver
    ([Validate]).

    Go strings are byte sequences and are modelled by [string]; Go maps are
    modelled by [gmap]; the [int] weights of [layersHierarchy] by [Z].  The
    logger [Log] writes to a sink and never influences a result, so the
    [Log.Print]/[Log.Printf] calls are left out. *)

From Stdlib Require Import ZArith Ascii.
From stdpp Require Import gmap strings list fin_maps.

Local Open Scope Z_scope.

(** ** The functions of Go's [strings] package that the program calls *)

Module GoStrings.

(** [strings.HasPrefix(s, prefix)]. *)
Fixpoint HasPrefix (s prefix : string) : bool :=
  match prefix, s with
  | EmptyString, _ => true
  | String _ _, EmptyString => false
  | String p prefix', String c s' =>
      if decide (c = p) then HasPrefix s' prefix' else false
  end.

(** [strings.Contains(s, substr)]: [substr] starts at some offset of [s]. *)
Fixpoint Contains (s substr : string) : bool :=
  HasPrefix s substr ||
  match s with
  | EmptyString => false
  | String _ s' => Contains s' substr
  end.

(** The slice expressions [s[n:]] and [s[:n]]. *)
Fixpoint sliceFrom (n : nat) (s : string) : string :=
  match n, s with
  | O, _ => s
  | S _, EmptyString => EmptyString
  | S n', String _ s' => sliceFrom n' s'
  end.

Fixpoint sliceTo (n : nat) (s : string) : string :=
  match n, s with
  | O, _ => EmptyString
  | S _, EmptyString => EmptyString
  | S n', String c s' => String c (sliceTo n' s')
  end.

(** [strings.HasSuffix(s, suffix)]:
    [len(s) >= len(suffix) && s[len(s)-len(suffix):] == suffix]. *)
Definition HasSuffix (s suffix : string) : bool :=
  bool_decide (String.length suffix ≤ String.length s)%nat &&
  bool_decide (sliceFrom (String.length s - String.length suffix) s = suffix).

(** [strings.TrimSuffix(s, suffix)]. *)
Definition TrimSuffix (s suffix : string) : string :=
  if HasSuffix s suffix
  then sliceTo (String.length s - String.length suffix) s
  else s.

(** [strings.TrimPrefix(s, prefix)]. *)
Definition TrimPrefix (s prefix : string) : string :=
  if HasPrefix s prefix then sliceFrom (String.length prefix) s else s.

(** [strings.Split(s, sep)] for a separator of one byte, which is how the
    program calls it ([sep = "/"]).  The result is never empty: a string
    without the separator is returned as its only element. *)
Fixpoint Split (s : string) (sep : ascii) : list string :=
  match s with
  | EmptyString => [EmptyString]
  | String c s' =>
      if decide (c = sep) then EmptyString :: Split s' sep
      else match Split s' sep with
           | [] => [String c EmptyString]
           | part :: parts => String c part :: parts
           end
  end.

End GoStrings.

(** ** Data model *)

(** [type Layer string]. *)
Definition Layer : Type := string.

Definition LayerDomain : Layer := "domain".
Definition LayerApplication : Layer := "application".
Definition LayerInfrastructure : Layer := "infrastructure".
Definition LayerInterfaces : Layer := "interfaces".

(** [var layersHierarchy = map[Layer]int{...}]. *)
Definition layersHierarchy : gmap Layer Z :=
  <[LayerDomain := 1]> (<[LayerApplication := 2]>
    (<[LayerInterfaces := 3]> (<[LayerInfrastructure := 4]> ∅))).

(** Indexing a Go map with a missing key gives the zero value. *)
Definition hierarchyOf (layer : Layer) : Z :=
  default 0 (layersHierarchy !! layer).

(** [type LayerMetadata struct { Module string; Layer Layer }]; the field
    names carry a prefix because [Module] is reserved and [Layer] is the
    type. *)
Record LayerMetadata : Type := mkLayerMetadata {
  mdModule : string;
  mdLayer : Layer
}.

(** [LayerMetadata{}]. *)
Definition zeroMetadata : LayerMetadata :=
  {| mdModule := ""; mdLayer := "" |}.

(** ** The classifier *)

(** The body of [for alias, layer := range alias { ... }].  Go leaves the
    order of a map iteration unspecified, so the loop is run over an explicit
    enumeration [entries] of the map. The [continue] of the source targets
    this same loop and so changes nothing. *)
Definition rangeAlias (entries : list (string * Layer)) (pathPart : string)
    (metadata : LayerMetadata) : LayerMetadata :=
  foldl (λ metadata entry,
           if decide (pathPart = entry.1)
           then {| mdModule := mdModule metadata; mdLayer := entry.2 |}
           else metadata)
        metadata entries.

(** The loop [for i := len(pathParts) - 1; i >= 0; i--], entered with
    [i = n - 1].  [order i] is the enumeration of the alias map that the
    iteration for index [i] sees.  The index stays below [len(pathParts)],
    so the branch for a missing element is never taken. *)
Fixpoint walkParts (order : nat → list (string * Layer))
    (pathParts : list string) (n : nat) (metadata : LayerMetadata)
    : LayerMetadata :=
  match n with
  | O => metadata
  | S i =>
      match pathParts !! i with
      | None => metadata
      | Some pathPart =>
          if decide (mdLayer metadata ≠ "")
          then {| mdModule := pathPart; mdLayer := mdLayer metadata |}
          else walkParts order pathParts i
                 (rangeAlias (order i) pathPart metadata)
      end
  end.

(** [ParseLayerMetadata] under a given schedule of map iterations. *)
Definition ParseLayerMetadataIn (order : nat → list (string * Layer))
    (path : string) : LayerMetadata :=
  let pathParts := GoStrings.Split path "/" in
  walkParts order pathParts (length pathParts) zeroMetadata.

(** A schedule is one the Go runtime may produce for [alias] when every
    iteration enumerates exactly the entries of the map. *)
Definition rangeOrder (alias : gmap string Layer)
    (order : nat → list (string * Layer)) : Prop :=
  ∀ i, order i ≡ₚ map_to_list alias.

(** [ParseLayerMetadata(path, alias)], with the map enumerated in the order
    of [map_to_list]; [ParseLayerMetadataIn_order] below shows that every
    other schedule gives the same value. *)
Definition ParseLayerMetadata (path : string) (alias : gmap string Layer)
    : LayerMetadata :=
  ParseLayerMetadataIn (λ _, map_to_list alias) path.

(** ** The validator *)

(** [type Validator struct]: the classification cache and the alias table. *)
Record Validator : Type := mkValidator {
  filesMetadata : gmap string LayerMetadata;
  alias : gmap string Layer
}.

(** [NewValidator(alias)] starts with an empty cache. *)
Definition NewValidator (alias : gmap string Layer) : Validator :=
  {| filesMetadata := ∅; alias := alias |}.

(** [v.filesMetadata[path] = metadata]. *)
Definition storeMetadata (v : Validator) (path : string)
    (metadata : LayerMetadata) : Validator :=
  {| filesMetadata := <[path := metadata]> (filesMetadata v);
     alias := alias v |}.

(** [func (v *Validator) fileMetadata(path string) LayerMetadata]; the
    receiver is mutated, so the new validator is returned with the value. *)
Definition fileMetadata (v : Validator) (path : string)
    : LayerMetadata * Validator :=
  match filesMetadata v !! path with
  | Some metadata => (metadata, v)
  | None =>
      let v' := storeMetadata v path (ParseLayerMetadata path (alias v)) in
      (default zeroMetadata (filesMetadata v' !! path), v')
  end.

(** [type ValidationError error]: a value made by [fmt.Errorf], kept as its
    message. *)
Definition ValidationError : Type := string.

(** The double-quote byte (code 34) around [imp.Path.Value]. *)
Definition quote : string := String "034"%char EmptyString.

Definition hierarchyError (importMeta : LayerMetadata) (importPath : string)
    (importerMeta : LayerMetadata) (path : string) : ValidationError :=
  "you cannot import " +:+ mdLayer importMeta +:+ " Layer (" +:+ importPath
    +:+ ") to " +:+ mdLayer importerMeta +:+ " Layer (" +:+ path +:+ ")".

Definition moduleError (importMeta : LayerMetadata) (importPath : string)
    (importerMeta : LayerMetadata) (path : string) : ValidationError :=
  "trying to import " +:+ mdLayer importMeta +:+ " Layer (" +:+ importPath
    +:+ ") to " +:+ mdLayer importerMeta +:+ " Layer (" +:+ path
    +:+ ") between " +:+ mdModule importMeta +:+ " and "
    +:+ mdModule importerMeta
    +:+ " modules, you can only import interfaces Layer to infrastructure Layer".

(** The decision of [validateImport] once the import is classified. *)
Definition checkImport (importMeta : LayerMetadata) (importPath : string)
    (importerMeta : LayerMetadata) (path : string) : list ValidationError :=
  let errors := [] in
  if decide (mdModule importMeta = mdModule importerMeta) then
    let importHierarchy := hierarchyOf (mdLayer importMeta) in
    let importerHierarchy := hierarchyOf (mdLayer importerMeta) in
    if decide (importHierarchy > importerHierarchy)
    then errors ++ [hierarchyError importMeta importPath importerMeta path]
    else errors
  else if decide (mdLayer importMeta ≠ "") then
    if decide (mdLayer importMeta ≠ LayerInterfaces
               ∨ mdLayer importerMeta ≠ LayerInfrastructure)
    then errors ++ [moduleError importMeta importPath importerMeta path]
    else errors
  else errors.

(** The path that [validateImport] classifies: [imp.Path.Value] without its
    closing and opening quote. *)
Definition importPathOf (imp : string) : string :=
  let importPath := imp in
  let importPath := GoStrings.TrimSuffix importPath quote in
  let importPath := GoStrings.TrimPrefix importPath quote in
  importPath.

(** [func (v *Validator) validateImport(imp, importerMeta, path)], where
    [imp] stands for [imp.Path.Value]. *)
Definition validateImport (v : Validator) (imp : string)
    (importerMeta : LayerMetadata) (path : string)
    : list ValidationError * Validator :=
  let importPath := importPathOf imp in
  let '(importMeta, v) := fileMetadata v importPath in
  (checkImport importMeta importPath importerMeta path, v).

(** ** The driver *)

(** What [filepath.Walk] and [parser.ParseFile] hand to the callback of
    [Validate]: the path, the [os.FileInfo] (an interface value, [nil] when
    the entry could not be examined) and the outcome of parsing the file at
    that path in [parser.ImportsOnly] mode. *)
Record FileInfo : Type := mkFileInfo { IsDir : bool }.

Inductive ParseResult : Type :=
  | ParsedImports (imports : list string)
  | ParseFailure (err : string).

Record WalkEntry : Type := mkWalkEntry {
  wePath : string;
  weInfo : option FileInfo;
  weParse : ParseResult
}.

(** A Go call either returns or panics. *)
Inductive PanicValue : Type :=
  | PanicError (err : string)
  | PanicNilDereference.

Inductive Outcome (A : Type) : Type :=
  | Returns (a : A)
  | Panics (value : PanicValue).
Arguments Returns {A} a.
Arguments Panics {A} value.

(** The variables the callback closes over: the validator and [errors]. *)
Definition RunState : Type := Validator * list ValidationError.

(** The inner loop over [ignoredPackages], which leaves the import loop at
    the first ignored package that the import's literal contains. *)
Definition isIgnored (imp : string) (ignoredPackages : list string) : bool :=
  existsb (λ ignoredPackage, GoStrings.Contains imp ignoredPackage)
          ignoredPackages.

(** The loop labelled [ImportsLoop]. *)
Fixpoint importsLoop (ignoredPackages : list string)
    (importerMeta : LayerMetadata) (path : string)
    (imports : list string) (st : RunState) : RunState :=
  match imports with
  | [] => st
  | imp :: imports' =>
      if isIgnored imp ignoredPackages
      then importsLoop ignoredPackages importerMeta path imports' st
      else
        let '(validationErrors, v) :=
          validateImport st.1 imp importerMeta path in
        importsLoop ignoredPackages importerMeta path imports'
          (v, st.2 ++ validationErrors)
  end.

(** The callback passed to [filepath.Walk]: it returns an [error], here
    the message or [None] for [nil], and leaves the variables it closes
    over in a new state. *)
Definition walkFn (ignoreTests : bool) (ignoredPackages : list string)
    (st : RunState) (entry : WalkEntry) : Outcome (option string * RunState) :=
  let path := wePath entry in
  match weInfo entry with
  | None => Panics PanicNilDereference
  | Some fi =>
      if IsDir fi then Returns (None, st)
      else if negb (GoStrings.HasSuffix path ".go") then Returns (None, st)
      else if ignoreTests && GoStrings.HasSuffix path "_test.go"
      then Returns (None, st)
      else if GoStrings.Contains path "/vendor/" then Returns (None, st)
      else if GoStrings.Contains path "/." then Returns (None, st)
      else
        match weParse entry with
        | ParseFailure err => Panics (PanicError err)
        | ParsedImports imports =>
            let '(importerMeta, v) := fileMetadata st.1 path in
            if decide (mdLayer importerMeta = "" ∨ mdModule importerMeta = "")
            then Returns (None, (v, st.2))
            else Returns (None,
                          importsLoop ignoredPackages importerMeta path
                            imports (v, st.2))
        end
  end.

(** [filepath.Walk(root, fn)] over the entries found under [root], in the
    order of the walk: it calls [fn] on each entry and stops with the first
    error that [fn] returns. *)
Fixpoint Walk (fn : RunState → WalkEntry → Outcome (option string * RunState))
    (entries : list WalkEntry) (st : RunState)
    : Outcome (option string * RunState) :=
  match entries with
  | [] => Returns (None, st)
  | entry :: entries' =>
      match fn st entry with
      | Panics value => Panics value
      | Returns (Some err, st') => Returns (Some err, st')
      | Returns (None, st') => Walk fn entries' st'
      end
  end.

(** The three results of [Validate]. *)
Record ValidateResult : Type := mkValidateResult {
  resOk : bool;
  resErrors : list ValidationError;
  resErr : option string
}.

(** [func (v *Validator) Validate(root, ignoreTests, ignoredPackages)];
    [root] is given by the entries of its tree.  The [nil] slice of the
    error return is the empty list. *)
Definition Validate (v : Validator) (root : list WalkEntry)
    (ignoreTests : bool) (ignoredPackages : list string)
    : Outcome (ValidateResult * Validator) :=
  let errors := [] in
  match Walk (walkFn ignoreTests ignoredPackages) root (v, errors) with
  | Panics value => Panics value
  | Returns (Some err, (v', _)) =>
      Returns ({| resOk := false; resErrors := []; resErr := Some err |}, v')
  | Returns (None, (v', errors)) =>
      Returns ({| resOk := bool_decide (length errors = 0%nat);
                  resErrors := errors;
                  resErr := None |}, v')
  end.

(** ** The classification in the words of the specification *)

(** Walk the segments from the last to the first ([segments] lists them in
    that order): the first segment that [recognise]s a Layer sets the Layer,
    the segment after it in the walk, if there is one, is the Module. *)
Fixpoint classifyFrom (recognise : string → option Layer)
    (segments : list string) : LayerMetadata :=
  match segments with
  | [] => zeroMetadata
  | segment :: above =>
      match recognise segment with
      | Some layer => {| mdModule := default "" (head above); mdLayer := layer |}
      | None => classifyFrom recognise above
      end
  end.

(** A segment is recognised when it equals an alias key. *)
Definition aliasOf (alias : gmap string Layer) (segment : string)
    : option Layer :=
  alias !! segment.

(** A segment is recognised when it equals an alias key whose Layer is not
    the empty one. *)
Definition namedAliasOf (alias : gmap string Layer) (segment : string)
    : option Layer :=
  match alias !! segment with
  | Some layer => if decide (layer = "") then None else Some layer
  | None => None
  end.

Definition Classify (recognise : string → option Layer) (path : string)
    : LayerMetadata :=
  classifyFrom recognise (reverse (GoStrings.Split path "/")).

(** ** Auxiliary definitions for the proofs *)

(** What one run of the inner loop does to the metadata, whatever the order
    of the enumeration. *)
Definition matchAlias (alias : gmap string Layer) (pathPart : string)
    (metadata : LayerMetadata) : LayerMetadata :=
  match alias !! pathPart with
  | Some layer => {| mdModule := mdModule metadata; mdLayer := layer |}
  | None => metadata
  end.

(** The outer loop as a recursion over the segments still to visit. *)
Fixpoint walkFrom (alias : gmap string Layer) (segments : list string)
    (metadata : LayerMetadata) : LayerMetadata :=
  match segments with
  | [] => metadata
  | pathPart :: above =>
      if decide (mdLayer metadata ≠ "")
      then {| mdModule := pathPart; mdLayer := mdLayer metadata |}
      else walkFrom alias above (matchAlias alias pathPart metadata)
  end.

(** The validators a program can hold: the exported constructor makes one,
    and the cache field is written by [fileMetadata] alone. *)
Inductive reachable : Validator → Prop :=
  | reachable_new alias : reachable (NewValidator alias)
  | reachable_lookup v path :
      reachable v → reachable (fileMetadata v path).2.

(** The validator after the lookups of [paths], in that order. *)
Definition lookups (v : Validator) (paths : list string) : Validator :=
  foldl (λ v path, (fileMetadata v path).2) v paths.

(** Every cached value is the classification of its key. *)
Definition cacheCoherent (v : Validator) : Prop :=
  ∀ path metadata,
    filesMetadata v !! path = Some metadata →
    metadata = ParseLayerMetadata path (alias v).

(** The validator of a run started on [v0] stays one the program can hold,
    over the alias table of [v0]. *)
Definition runInv (v0 : Validator) (st : RunState) : Prop :=
  reachable st.1 ∧ alias st.1 = alias v0.

(** The guards of the callback that come before the parse: the entry is a
    file that [Validate] goes on to parse. *)
Definition discovered (ignoreTests : bool) (entry : WalkEntry) : bool :=
  match weInfo entry with
  | None => false
  | Some fi =>
      negb (IsDir fi)
      && GoStrings.HasSuffix (wePath entry) ".go"
      && negb (ignoreTests && GoStrings.HasSuffix (wePath entry) "_test.go")
      && negb (GoStrings.Contains (wePath entry) "/vendor/")
      && negb (GoStrings.Contains (wePath entry) "/.")
  end.

(** The entry with another import list. *)
Definition withImports (entry : WalkEntry) (imports : list string)
    : WalkEntry :=
  {| wePath := wePath entry; weInfo := weInfo entry;
     weParse := ParsedImports imports |}.

(** ** Reference definitions for the run *)

(** The result of a call without the validator it leaves. *)
Definition resultOf (outcome : Outcome (ValidateResult * Validator))
    : Outcome ValidateResult :=
  match outcome with
  | Returns (result, _) => Returns result
  | Panics value => Panics value
  end.

(** The number of imports that the files of a tree declare. *)
Definition importCount (root : list WalkEntry) : nat :=
  sum_list_with (λ entry,
                   match weParse entry with
                   | ParsedImports imports => length imports
                   | ParseFailure _ => 0%nat
                   end) root.

(** The violations of one import, of one file and of a tree, computed from
    [ParseLayerMetadata] without a cache. *)
Definition importErrors (alias : gmap string Layer)
    (ignoredPackages : list string) (importerMeta : LayerMetadata)
    (path : string) (imp : string) : list ValidationError :=
  if isIgnored imp ignoredPackages then []
  else checkImport (ParseLayerMetadata (importPathOf imp) alias)
         (importPathOf imp) importerMeta path.

Definition fileErrors (alias : gmap string Layer) (ignoreTests : bool)
    (ignoredPackages : list string) (entry : WalkEntry)
    : list ValidationError :=
  if discovered ignoreTests entry then
    match weParse entry with
    | ParseFailure _ => []
    | ParsedImports imports =>
        let importerMeta := ParseLayerMetadata (wePath entry) alias in
        if decide (mdLayer importerMeta = "" ∨ mdModule importerMeta = "")
        then []
        else imports ≫= importErrors alias ignoredPackages importerMeta
                          (wePath entry)
    end
  else [].

(** ** Sample inputs *)

(** The alias table of the specification's scenarios. *)
Definition sampleAlias : gmap string Layer :=
  list_to_map [("domain", LayerDomain); ("application", LayerApplication);
               ("infra", LayerInfrastructure); ("interfaces", LayerInterfaces)].

(** An alias table with a key bound to the empty Layer. *)
Definition blankAlias : gmap string Layer :=
  list_to_map [("domain", LayerDomain); ("x", "")].

(** [imp.Path.Value] of the import of [importPath]. *)
Definition literal (importPath : string) : string :=
  quote +:+ importPath +:+ quote.

Definition sourceFile (path : string) (importPaths : list string)
    : WalkEntry :=
  {| wePath := path; weInfo := Some {| IsDir := false |};
     weParse := ParsedImports (literal <$> importPaths) |}.

Definition brokenFile (path : string) (err : string) : WalkEntry :=
  {| wePath := path; weInfo := Some {| IsDir := false |};
     weParse := ParseFailure err |}.

(** The tree of the specification's scenarios. *)
Definition sampleTree : list WalkEntry :=
  [sourceFile "modA/domain/user.go" ["modA/infra/db"];
   sourceFile "modA/infra/db.go" ["modA/domain/user"];
   sourceFile "modA/infra/gateway.go"
     ["modB/interfaces/api"; "modB/domain/entity"];
   sourceFile "modA/application/service.go" ["thirdparty/lib"]].

(** * Properties of the classifier *)

Section classifier.
Context (alias : gmap string Layer).

Lemma rangeAlias_mdModule entries pathPart metadata :
  mdModule (rangeAlias entries pathPart metadata) = mdModule metadata.
Proof.
  revert metadata. induction entries as [|entry entries IH]; intros metadata.
  - reflexivity.
  - unfold rangeAlias in *. cbn [foldl]. rewrite IH.
    case_decide; reflexivity.
Qed.

Lemma rangeAlias_absent entries pathPart metadata :
  pathPart ∉ entries.*1 →
  rangeAlias entries pathPart metadata = metadata.
Proof.
  revert metadata. induction entries as [|entry entries IH];
    intros metadata Hnotin.
  - reflexivity.
  - rewrite fmap_cons, not_elem_of_cons in Hnotin.
    destruct Hnotin as [Hne Hnotin].
    unfold rangeAlias in *. cbn [foldl].
    rewrite decide_False by exact Hne. apply IH, Hnotin.
Qed.

Lemma rangeAlias_present entries pathPart layer metadata :
  NoDup entries.*1 →
  (pathPart, layer) ∈ entries →
  rangeAlias entries pathPart metadata
  = {| mdModule := mdModule metadata; mdLayer := layer |}.
Proof.
  revert metadata. induction entries as [|entry entries IH];
    intros metadata Hnodup Hin.
  - inversion Hin.
  - rewrite fmap_cons in Hnodup. apply NoDup_cons in Hnodup.
    destruct Hnodup as [Hfresh Hnodup].
    change (rangeAlias (entry :: entries) pathPart metadata)
      with (rangeAlias entries pathPart
              (if decide (pathPart = entry.1)
               then {| mdModule := mdModule metadata; mdLayer := entry.2 |}
               else metadata)).
    apply elem_of_cons in Hin. destruct Hin as [<- | Hin].
    + cbn [fst snd]. rewrite decide_True by reflexivity.
      apply rangeAlias_absent, Hfresh.
    + case_decide as Heq.
      * exfalso. apply Hfresh. rewrite <- Heq.
        apply (list_elem_of_fmap_2 fst) in Hin. exact Hin.
      * apply IH; assumption.
Qed.

(** The inner loop computes the map lookup under every enumeration of the
    map. *)
Lemma rangeAlias_matchAlias entries pathPart metadata :
  entries ≡ₚ map_to_list alias →
  rangeAlias entries pathPart metadata = matchAlias alias pathPart metadata.
Proof.
  intros Hperm. unfold matchAlias.
  assert (NoDup entries.*1) as Hnodup.
  { rewrite Hperm. apply NoDup_fst_map_to_list. }
  destruct (alias !! pathPart) as [layer|] eqn:Hlookup.
  - apply rangeAlias_present; [exact Hnodup|].
    rewrite Hperm. apply elem_of_map_to_list, Hlookup.
  - apply rangeAlias_absent. intros Hin.
    apply list_elem_of_fmap in Hin. destruct Hin as [[key layer] [-> Hin]].
    rewrite Hperm in Hin. apply elem_of_map_to_list in Hin.
    cbn in Hlookup. congruence.
Qed.

Lemma walkParts_walkFrom order pathParts n metadata :
  rangeOrder alias order →
  (n ≤ length pathParts)%nat →
  walkParts order pathParts n metadata
  = walkFrom alias (reverse (take n pathParts)) metadata.
Proof.
  intros Horder. revert metadata.
  induction n as [|i IH]; intros metadata Hn.
  - reflexivity.
  - destruct (lookup_lt_is_Some_2 pathParts i) as [pathPart Hpart]; [lia|].
    cbn [walkParts]. rewrite Hpart.
    rewrite (take_S_r _ _ _ Hpart), reverse_snoc. cbn [walkFrom].
    case_decide; [reflexivity|].
    rewrite IH by lia.
    rewrite rangeAlias_matchAlias by apply Horder. reflexivity.
Qed.

Lemma ParseLayerMetadataIn_walkFrom order path :
  rangeOrder alias order →
  ParseLayerMetadataIn order path
  = walkFrom alias (reverse (GoStrings.Split path "/")) zeroMetadata.
Proof.
  intros Horder. unfold ParseLayerMetadataIn.
  rewrite walkParts_walkFrom by (exact Horder || lia).
  rewrite firstn_all. reflexivity.
Qed.

Lemma rangeOrder_map_to_list : rangeOrder alias (λ _, map_to_list alias).
Proof. intros i. reflexivity. Qed.

(** Every schedule gives the value of [ParseLayerMetadata]. *)
Lemma ParseLayerMetadataIn_order order path :
  rangeOrder alias order →
  ParseLayerMetadataIn order path = ParseLayerMetadata path alias.
Proof.
  intros Horder. unfold ParseLayerMetadata.
  rewrite !ParseLayerMetadataIn_walkFrom
    by (exact Horder || apply rangeOrder_map_to_list).
  reflexivity.
Qed.

Lemma ParseLayerMetadata_walkFrom path :
  ParseLayerMetadata path alias
  = walkFrom alias (reverse (GoStrings.Split path "/")) zeroMetadata.
Proof. apply ParseLayerMetadataIn_walkFrom, rangeOrder_map_to_list. Qed.

(** Once a Layer is set the walk takes at most one more segment. *)
Lemma walkFrom_found above module layer :
  layer ≠ "" →
  walkFrom alias above {| mdModule := module; mdLayer := layer |}
  = {| mdModule := default module (head above); mdLayer := layer |}.
Proof.
  intros Hlayer. destruct above as [|pathPart above]; [reflexivity|].
  cbn [walkFrom mdLayer head default]. rewrite decide_True by exact Hlayer.
  reflexivity.
Qed.

Lemma walkFrom_classifyFrom segments :
  walkFrom alias segments zeroMetadata
  = classifyFrom (namedAliasOf alias) segments.
Proof.
  induction segments as [|segment above IH]; [reflexivity|].
  cbn [walkFrom classifyFrom]. rewrite decide_False by (cbn; tauto).
  unfold matchAlias, namedAliasOf.
  destruct (alias !! segment) as [layer|]; [|exact IH].
  case_decide as Hlayer.
  - subst layer. exact IH.
  - apply walkFrom_found, Hlayer.
Qed.

(** The walk keeps the Module empty as long as the Layer is. *)
Lemma walkParts_module_inv order pathParts n metadata :
  (mdLayer metadata = "" → mdModule metadata = "") →
  mdLayer (walkParts order pathParts n metadata) = "" →
  mdModule (walkParts order pathParts n metadata) = "".
Proof.
  revert metadata. induction n as [|i IH]; intros metadata Hinv.
  - exact Hinv.
  - cbn [walkParts]. destruct (pathParts !! i) as [pathPart|]; [|exact Hinv].
    case_decide as Hlayer.
    + cbn. intros Hempty. contradiction.
    + apply IH. intros _. rewrite rangeAlias_mdModule.
      apply Hinv. destruct (decide (mdLayer metadata = "")); tauto.
Qed.

End classifier.

(** C7.  Classification is deterministic: two calls of [ParseLayerMetadata]
    on the same path and alias table return the same [LayerMetadata],
    whatever order each iteration of the inner loop enumerates the alias map
    in. *)
Theorem ParseLayerMetadata_deterministic
    (alias : gmap string Layer) (order1 order2 : nat → list (string * Layer))
    (path : string) :
  rangeOrder alias order1 →
  rangeOrder alias order2 →
  ParseLayerMetadataIn order1 path = ParseLayerMetadataIn order2 path.
Proof.
  intros Horder1 Horder2.
  rewrite (ParseLayerMetadataIn_order alias order1) by exact Horder1.
  rewrite (ParseLayerMetadataIn_order alias order2) by exact Horder2.
  reflexivity.
Qed.

Lemma ParseLayerMetadata_deterministic_witness :
  ParseLayerMetadataIn (λ _, map_to_list sampleAlias) "modA/domain/user.go"
  = ParseLayerMetadataIn (λ _, reverse (map_to_list sampleAlias))
      "modA/domain/user.go".
Proof.
  apply (ParseLayerMetadata_deterministic sampleAlias).
  - intros i. reflexivity.
  - intros i. apply reverse_Permutation.
Defined.

(** The claim C3 as worded fails on an alias bound to the empty Layer: the
    segment [x] is an alias key, yet the walk goes on, takes [domain] for
    the Layer and [a] for the Module. *)
Lemma ParseLayerMetadata_blank_alias :
  ParseLayerMetadata "a/domain/x" blankAlias
  = {| mdModule := "a"; mdLayer := "domain" |}
  ∧ Classify (aliasOf blankAlias) "a/domain/x"
    = {| mdModule := "domain"; mdLayer := "" |}
  ∧ ParseLayerMetadata "a/domain/x" blankAlias
    ≠ Classify (aliasOf blankAlias) "a/domain/x".
Proof. vm_compute. repeat split. discriminate. Qed.

(** C3, amended.  [ParseLayerMetadata] splits the path on the slash and walks
    the segments from the last to the first: the first segment equal to an
    alias key whose Layer is not empty sets the Layer, the next segment
    toward the start of the path becomes the Module and the walk stops; with
    no such segment both fields are empty, and when that segment is the first
    component of the path the Module stays empty. *)
Theorem ParseLayerMetadata_Classify
    (path : string) (alias : gmap string Layer) :
  ParseLayerMetadata path alias = Classify (namedAliasOf alias) path.
Proof.
  rewrite ParseLayerMetadata_walkFrom. apply walkFrom_classifyFrom.
Qed.

(** On an alias table without empty Layers the two readings agree. *)
Lemma namedAliasOf_aliasOf (alias : gmap string Layer) (segment : string) :
  (∀ key, alias !! key ≠ Some "") →
  namedAliasOf alias segment = aliasOf alias segment.
Proof.
  intros Hnamed. unfold namedAliasOf, aliasOf.
  destruct (alias !! segment) as [layer|] eqn:Hlookup; [|reflexivity].
  case_decide as Hlayer; [|reflexivity].
  subst layer. destruct (Hnamed _ Hlookup).
Qed.

Lemma classifyFrom_ext (recognise1 recognise2 : string → option Layer)
    (segments : list string) :
  (∀ segment, recognise1 segment = recognise2 segment) →
  classifyFrom recognise1 segments = classifyFrom recognise2 segments.
Proof.
  intros Hext. induction segments as [|segment above IH]; [reflexivity|].
  cbn [classifyFrom]. rewrite Hext, IH. reflexivity.
Qed.

Lemma ParseLayerMetadata_Classify_named
    (path : string) (alias : gmap string Layer) :
  (∀ key, alias !! key ≠ Some "") →
  ParseLayerMetadata path alias = Classify (aliasOf alias) path.
Proof.
  intros Hnamed. rewrite ParseLayerMetadata_walkFrom, walkFrom_classifyFrom.
  apply classifyFrom_ext. intros segment.
  apply namedAliasOf_aliasOf, Hnamed.
Qed.

(** C10.  A [LayerMetadata] returned by [ParseLayerMetadata] never has a
    Module without a Layer: if the Layer is empty so is the Module, hence
    the Module differs from that of any importer whose Module is not
    empty. *)
Theorem ParseLayerMetadata_no_module_without_layer
    (path : string) (alias : gmap string Layer) (importerMeta : LayerMetadata) :
  mdLayer (ParseLayerMetadata path alias) = "" →
  mdModule (ParseLayerMetadata path alias) = ""
  ∧ (mdModule importerMeta ≠ "" →
     mdModule (ParseLayerMetadata path alias) ≠ mdModule importerMeta).
Proof.
  intros Hlayer.
  assert (mdModule (ParseLayerMetadata path alias) = "") as Hmodule.
  { revert Hlayer. unfold ParseLayerMetadata, ParseLayerMetadataIn.
    apply walkParts_module_inv. reflexivity. }
  split; [exact Hmodule|].
  intros Hne. rewrite Hmodule. congruence.
Qed.

Lemma ParseLayerMetadata_no_module_without_layer_witness :
  mdModule (ParseLayerMetadata "thirdparty/lib" sampleAlias) = ""
  ∧ (mdModule {| mdModule := "modA"; mdLayer := LayerApplication |} ≠ "" →
     mdModule (ParseLayerMetadata "thirdparty/lib" sampleAlias)
     ≠ mdModule {| mdModule := "modA"; mdLayer := LayerApplication |}).
Proof.
  apply (ParseLayerMetadata_no_module_without_layer "thirdparty/lib"
           sampleAlias {| mdModule := "modA"; mdLayer := LayerApplication |}).
  vm_compute. reflexivity.
Defined.

(** * Properties of the memoised lookup *)

Lemma fileMetadata_alias (v : Validator) (path : string) :
  alias (fileMetadata v path).2 = alias v.
Proof. unfold fileMetadata. destruct (filesMetadata v !! path); reflexivity. Qed.

Lemma fileMetadata_hit (v : Validator) (path : string)
    (metadata : LayerMetadata) :
  filesMetadata v !! path = Some metadata →
  fileMetadata v path = (metadata, v).
Proof. intros Hhit. unfold fileMetadata. rewrite Hhit. reflexivity. Qed.

Lemma fileMetadata_miss (v : Validator) (path : string) :
  filesMetadata v !! path = None →
  fileMetadata v path
  = (ParseLayerMetadata path (alias v),
     storeMetadata v path (ParseLayerMetadata path (alias v))).
Proof.
  intros Hmiss. unfold fileMetadata. rewrite Hmiss.
  cbn [storeMetadata filesMetadata]. rewrite lookup_insert_eq. reflexivity.
Qed.

(** The cache only grows, and only at the path that is looked up. *)
Lemma fileMetadata_keeps (v : Validator) (path other : string)
    (metadata : LayerMetadata) :
  filesMetadata v !! other = Some metadata →
  filesMetadata (fileMetadata v path).2 !! other = Some metadata.
Proof.
  intros Hother. destruct (filesMetadata v !! path) as [cached|] eqn:Hpath.
  - rewrite (fileMetadata_hit _ _ _ Hpath). exact Hother.
  - rewrite (fileMetadata_miss _ _ Hpath). cbn.
    rewrite lookup_insert_ne; [exact Hother|]. congruence.
Qed.

Lemma fileMetadata_elsewhere (v : Validator) (path other : string) :
  other ≠ path →
  filesMetadata (fileMetadata v path).2 !! other = filesMetadata v !! other.
Proof.
  intros Hne. destruct (filesMetadata v !! path) as [cached|] eqn:Hpath.
  - rewrite (fileMetadata_hit _ _ _ Hpath). reflexivity.
  - rewrite (fileMetadata_miss _ _ Hpath). cbn.
    apply lookup_insert_ne. congruence.
Qed.

Lemma fileMetadata_cached (v : Validator) (path : string) :
  filesMetadata (fileMetadata v path).2 !! path
  = Some (fileMetadata v path).1.
Proof.
  destruct (filesMetadata v !! path) as [cached|] eqn:Hpath.
  - rewrite (fileMetadata_hit _ _ _ Hpath). exact Hpath.
  - rewrite (fileMetadata_miss _ _ Hpath). cbn. apply lookup_insert_eq.
Qed.

Lemma lookups_keeps (paths : list string) (v : Validator) (other : string)
    (metadata : LayerMetadata) :
  filesMetadata v !! other = Some metadata →
  filesMetadata (lookups v paths) !! other = Some metadata.
Proof.
  revert v. induction paths as [|path paths IH]; intros v Hother.
  - exact Hother.
  - apply (IH (fileMetadata v path).2), fileMetadata_keeps, Hother.
Qed.

Lemma NewValidator_coherent (alias : gmap string Layer) :
  cacheCoherent (NewValidator alias).
Proof. intros path metadata Hhit. cbn in Hhit. rewrite lookup_empty in Hhit. discriminate. Qed.

Lemma fileMetadata_coherent (v : Validator) (path : string) :
  cacheCoherent v → cacheCoherent (fileMetadata v path).2.
Proof.
  intros Hcoherent other metadata. rewrite fileMetadata_alias.
  destruct (filesMetadata v !! path) as [cached|] eqn:Hpath.
  - rewrite (fileMetadata_hit _ _ _ Hpath). apply Hcoherent.
  - rewrite (fileMetadata_miss _ _ Hpath). cbn.
    rewrite lookup_insert. case_decide as Heq.
    + subst other. congruence.
    + apply Hcoherent.
Qed.

Lemma reachable_coherent (v : Validator) : reachable v → cacheCoherent v.
Proof.
  induction 1 as [alias|v path _ IH].
  - apply NewValidator_coherent.
  - apply fileMetadata_coherent, IH.
Qed.

Lemma fileMetadata_value (v : Validator) (path : string) :
  reachable v →
  (fileMetadata v path).1 = ParseLayerMetadata path (alias v).
Proof.
  intros Hreach. destruct (filesMetadata v !! path) as [cached|] eqn:Hpath.
  - rewrite (fileMetadata_hit _ _ _ Hpath).
    apply (reachable_coherent _ Hreach), Hpath.
  - rewrite (fileMetadata_miss _ _ Hpath). reflexivity.
Qed.

(** The validators the program can hold are those made by [NewValidator]
    and a sequence of lookups. *)
Lemma reachable_lookups (v : Validator) :
  reachable v ↔ ∃ alias paths, v = lookups (NewValidator alias) paths.
Proof.
  split.
  - induction 1 as [alias|v path _ [alias [paths ->]]].
    + exists alias, []. reflexivity.
    + exists alias, (paths ++ [path]). unfold lookups.
      rewrite foldl_app. reflexivity.
  - intros [alias [paths ->]].
    induction paths as [|path paths IH] using rev_ind.
    + apply reachable_new.
    + unfold lookups. rewrite foldl_app. apply reachable_lookup, IH.
Qed.

(** C8.  On every validator the program can hold, [fileMetadata] returns
    what [ParseLayerMetadata] computes for the path; the value is then in the
    cache, and a later lookup of the same path, after any other lookups,
    finds it there and returns it with the cache left as it is. *)
Theorem fileMetadata_memoised
    (v : Validator) (path : string) (others : list string) :
  reachable v →
  (fileMetadata v path).1 = ParseLayerMetadata path (alias v)
  ∧ filesMetadata (fileMetadata v path).2 !! path
    = Some (fileMetadata v path).1
  ∧ filesMetadata (lookups (fileMetadata v path).2 others) !! path
    = Some (fileMetadata v path).1
  ∧ fileMetadata (lookups (fileMetadata v path).2 others) path
    = ((fileMetadata v path).1, lookups (fileMetadata v path).2 others).
Proof.
  intros Hreach.
  pose proof (fileMetadata_cached v path) as Hcached.
  pose proof (lookups_keeps others _ _ _ Hcached) as Hlater.
  repeat split.
  - apply fileMetadata_value, Hreach.
  - exact Hcached.
  - exact Hlater.
  - apply fileMetadata_hit, Hlater.
Qed.

Lemma fileMetadata_memoised_witness :
  let v := (fileMetadata (NewValidator sampleAlias) "modA/domain/user.go").2 in
  let path := "modB/interfaces/api" in
  let others := ["modA/infra/gateway.go"; "modC/infra/client.go"] in
  (fileMetadata v path).1 = ParseLayerMetadata path (alias v)
  ∧ filesMetadata (fileMetadata v path).2 !! path
    = Some (fileMetadata v path).1
  ∧ filesMetadata (lookups (fileMetadata v path).2 others) !! path
    = Some (fileMetadata v path).1
  ∧ fileMetadata (lookups (fileMetadata v path).2 others) path
    = ((fileMetadata v path).1, lookups (fileMetadata v path).2 others).
Proof.
  intros v path others. apply (fileMetadata_memoised v path others).
  apply reachable_lookup, reachable_new.
Defined.

(** * Properties of the decision rule *)

Lemma layersHierarchy_weights :
  hierarchyOf LayerDomain = 1 ∧ hierarchyOf LayerApplication = 2
  ∧ hierarchyOf LayerInterfaces = 3 ∧ hierarchyOf LayerInfrastructure = 4.
Proof. vm_compute. repeat split. Qed.

(** A Layer outside the table weighs 0, a Layer inside from 1 to 4. *)
Lemma hierarchyOf_range (layer : Layer) : 0 ≤ hierarchyOf layer ≤ 4.
Proof.
  unfold hierarchyOf, layersHierarchy.
  repeat (rewrite lookup_insert; case_decide; [cbn; lia|]).
  rewrite lookup_empty. cbn. lia.
Qed.

Lemma hierarchyOf_empty : hierarchyOf "" = 0.
Proof. vm_compute. reflexivity. Qed.

Lemma validateImport_unfold (v : Validator) (imp : string)
    (importerMeta : LayerMetadata) (path : string) :
  validateImport v imp importerMeta path
  = (checkImport (fileMetadata v (importPathOf imp)).1 (importPathOf imp)
       importerMeta path,
     (fileMetadata v (importPathOf imp)).2).
Proof.
  unfold validateImport.
  destruct (fileMetadata v (importPathOf imp)) as [importMeta v'].
  reflexivity.
Qed.

Lemma checkImport_same_module (importMeta importerMeta : LayerMetadata)
    (importPath path : string) :
  mdModule importMeta = mdModule importerMeta →
  checkImport importMeta importPath importerMeta path
  = if decide (hierarchyOf (mdLayer importMeta)
               > hierarchyOf (mdLayer importerMeta))
    then [hierarchyError importMeta importPath importerMeta path]
    else [].
Proof.
  intros Hsame. unfold checkImport. rewrite decide_True by exact Hsame.
  reflexivity.
Qed.

Lemma checkImport_other_module (importMeta importerMeta : LayerMetadata)
    (importPath path : string) :
  mdModule importMeta ≠ mdModule importerMeta →
  mdLayer importMeta ≠ "" →
  checkImport importMeta importPath importerMeta path
  = if decide (mdLayer importMeta ≠ LayerInterfaces
               ∨ mdLayer importerMeta ≠ LayerInfrastructure)
    then [moduleError importMeta importPath importerMeta path]
    else [].
Proof.
  intros Hother Hlayer. unfold checkImport.
  rewrite decide_False by exact Hother.
  rewrite decide_True by exact Hlayer. reflexivity.
Qed.

(** C1.  When the import and the importer are classified with the same
    Module, which is not empty, [validateImport] reports a violation exactly
    when the weight of the imported Layer is greater than the weight of the
    importer's Layer, the weights being Domain 1, Application 2,
    Interfaces 3 and Infrastructure 4; an import of the same or of a lighter
    Layer is never a violation. *)
Theorem validateImport_same_module
    (v : Validator) (imp : string) (importerMeta : LayerMetadata)
    (path : string) :
  let importMeta := (fileMetadata v (importPathOf imp)).1 in
  mdModule importMeta = mdModule importerMeta →
  mdModule importMeta ≠ "" →
  ((validateImport v imp importerMeta path).1 ≠ []
   ↔ hierarchyOf (mdLayer importMeta) > hierarchyOf (mdLayer importerMeta))
  ∧ (hierarchyOf (mdLayer importMeta) ≤ hierarchyOf (mdLayer importerMeta) →
     (validateImport v imp importerMeta path).1 = [])
  ∧ hierarchyOf LayerDomain = 1 ∧ hierarchyOf LayerApplication = 2
  ∧ hierarchyOf LayerInterfaces = 3 ∧ hierarchyOf LayerInfrastructure = 4.
Proof.
  intros importMeta Hsame _. rewrite validateImport_unfold. cbn [fst].
  fold importMeta. rewrite (checkImport_same_module _ _ _ _ Hsame).
  split; [|split; [|exact layersHierarchy_weights]].
  - case_decide; split; intros; (done || lia).
  - intros Hle. rewrite decide_False by lia. reflexivity.
Qed.

Lemma validateImport_same_module_witness :
  let v := NewValidator sampleAlias in
  let imp := literal "modA/infra/db" in
  let importerMeta := ParseLayerMetadata "modA/domain/user.go" sampleAlias in
  let importMeta := (fileMetadata v (importPathOf imp)).1 in
  ((validateImport v imp importerMeta "modA/domain/user.go").1 ≠ []
   ↔ hierarchyOf (mdLayer importMeta) > hierarchyOf (mdLayer importerMeta))
  ∧ (hierarchyOf (mdLayer importMeta) ≤ hierarchyOf (mdLayer importerMeta) →
     (validateImport v imp importerMeta "modA/domain/user.go").1 = [])
  ∧ hierarchyOf LayerDomain = 1 ∧ hierarchyOf LayerApplication = 2
  ∧ hierarchyOf LayerInterfaces = 3 ∧ hierarchyOf LayerInfrastructure = 4.
Proof.
  intros v imp importerMeta.
  apply (validateImport_same_module v imp importerMeta "modA/domain/user.go").
  - vm_compute. reflexivity.
  - vm_compute. discriminate.
Defined.

(** C2.  When the Modules of the import and of the importer differ and the
    imported Layer is not empty, [validateImport] reports a violation exactly
    when it is not the case that the imported Layer is Interfaces and the
    importer's Layer is Infrastructure; the weights play no part, so an
    import of the same Layer of another module is a violation too. *)
Theorem validateImport_other_module
    (v : Validator) (imp : string) (importerMeta : LayerMetadata)
    (path : string) :
  let importMeta := (fileMetadata v (importPathOf imp)).1 in
  mdModule importMeta ≠ mdModule importerMeta →
  mdLayer importMeta ≠ "" →
  ((validateImport v imp importerMeta path).1 ≠ []
   ↔ ¬ (mdLayer importMeta = LayerInterfaces
        ∧ mdLayer importerMeta = LayerInfrastructure))
  ∧ (mdLayer importMeta = mdLayer importerMeta →
     (validateImport v imp importerMeta path).1 ≠ []).
Proof.
  intros importMeta Hother Hlayer. rewrite validateImport_unfold. cbn [fst].
  fold importMeta. rewrite (checkImport_other_module _ _ _ _ Hother Hlayer).
  split.
  - case_decide as Hrule; split; intros; (done || tauto).
  - intros Hsame. rewrite decide_True; [done|].
    destruct (decide (mdLayer importMeta = LayerInterfaces)) as [Heq|Hne];
      [right; rewrite <- Hsame, Heq; discriminate | left; exact Hne].
Qed.

Lemma validateImport_other_module_witness :
  let v := NewValidator sampleAlias in
  let imp := literal "modB/domain/entity" in
  let importerMeta := ParseLayerMetadata "modA/infra/gateway.go" sampleAlias in
  let importMeta := (fileMetadata v (importPathOf imp)).1 in
  ((validateImport v imp importerMeta "modA/infra/gateway.go").1 ≠ []
   ↔ ¬ (mdLayer importMeta = LayerInterfaces
        ∧ mdLayer importerMeta = LayerInfrastructure))
  ∧ (mdLayer importMeta = mdLayer importerMeta →
     (validateImport v imp importerMeta "modA/infra/gateway.go").1 ≠ []).
Proof.
  intros v imp importerMeta.
  apply (validateImport_other_module v imp importerMeta
           "modA/infra/gateway.go").
  - vm_compute. discriminate.
  - vm_compute. discriminate.
Defined.

(** C5.  An import whose classified Layer is empty gives no violation,
    whatever the classification of the importer. *)
Theorem validateImport_unclassified_import
    (v : Validator) (imp : string) (importerMeta : LayerMetadata)
    (path : string) :
  mdLayer (fileMetadata v (importPathOf imp)).1 = "" →
  (validateImport v imp importerMeta path).1 = [].
Proof.
  intros Hlayer. rewrite validateImport_unfold. cbn [fst].
  unfold checkImport. rewrite Hlayer, hierarchyOf_empty.
  pose proof (hierarchyOf_range (mdLayer importerMeta)).
  repeat case_decide; (done || lia).
Qed.

Lemma validateImport_unclassified_import_witness :
  (validateImport (NewValidator sampleAlias) (literal "thirdparty/lib")
     (ParseLayerMetadata "modA/application/service.go" sampleAlias)
     "modA/application/service.go").1 = [].
Proof.
  apply validateImport_unclassified_import. vm_compute. reflexivity.
Defined.

(** * Properties of the driver *)

(** [HasPrefix] and [Contains] are the prefix and the substring tests. *)
Lemma HasPrefix_spec (s prefix : string) :
  GoStrings.HasPrefix s prefix = true ↔ ∃ post, s = prefix +:+ post.
Proof.
  revert s. induction prefix as [|p prefix IH]; intros s.
  - cbn. destruct s; split; eauto.
  - destruct s as [|c s]; cbn.
    + split; [discriminate | intros [post Heq]; discriminate].
    + case_decide as Hc.
      * subst p. rewrite IH. split; intros [post Heq]; exists post.
        -- cbn. rewrite Heq. reflexivity.
        -- cbn in Heq. injection Heq as Heq. exact Heq.
      * split; [discriminate|]. intros [post Heq]. cbn in Heq.
        injection Heq as Hhead _. contradiction.
Qed.

Lemma Contains_spec (s substr : string) :
  GoStrings.Contains s substr = true
  ↔ ∃ pre post, s = pre +:+ substr +:+ post.
Proof.
  induction s as [|c s IH]; cbn [GoStrings.Contains];
    rewrite orb_true_iff, HasPrefix_spec.
  - split.
    + intros [[post Heq] | Hfalse]; [|discriminate]. exists "", post. exact Heq.
    + intros [pre [post Heq]]. left. destruct pre; [|discriminate].
      exists post. exact Heq.
  - rewrite IH. split.
    + intros [[post Heq] | [pre [post Heq]]].
      * exists "", post. exact Heq.
      * exists (String c pre), post. cbn. rewrite Heq. reflexivity.
    + intros [pre [post Heq]]. destruct pre as [|c' pre].
      * left. exists post. exact Heq.
      * right. exists pre, post. cbn in Heq. injection Heq as _ Heq.
        exact Heq.
Qed.

Lemma isIgnored_spec (imp : string) (ignoredPackages : list string) :
  isIgnored imp ignoredPackages = true
  ↔ ∃ ignoredPackage pre post,
      ignoredPackage ∈ ignoredPackages
      ∧ imp = pre +:+ ignoredPackage +:+ post.
Proof.
  unfold isIgnored. rewrite existsb_exists. split.
  - intros [ignoredPackage [Hin Hcontains]].
    apply Contains_spec in Hcontains. destruct Hcontains as [pre [post Heq]].
    exists ignoredPackage, pre, post. split; [|exact Heq].
    apply list_elem_of_In, Hin.
  - intros [ignoredPackage [pre [post [Hin Heq]]]].
    exists ignoredPackage. split; [apply list_elem_of_In, Hin|].
    apply Contains_spec. eauto.
Qed.

Section run.
Context (ignoreTests : bool) (ignoredPackages : list string).

Lemma importsLoop_app importerMeta path imports1 imports2 st :
  importsLoop ignoredPackages importerMeta path (imports1 ++ imports2) st
  = importsLoop ignoredPackages importerMeta path imports2
      (importsLoop ignoredPackages importerMeta path imports1 st).
Proof.
  revert st. induction imports1 as [|imp imports1 IH]; intros st.
  - reflexivity.
  - cbn [app importsLoop]. destruct (isIgnored imp ignoredPackages).
    + apply IH.
    + destruct (validateImport st.1 imp importerMeta path). apply IH.
Qed.

Lemma importsLoop_ignored importerMeta path imp imports st :
  isIgnored imp ignoredPackages = true →
  importsLoop ignoredPackages importerMeta path (imp :: imports) st
  = importsLoop ignoredPackages importerMeta path imports st.
Proof. intros Hignored. cbn [importsLoop]. rewrite Hignored. reflexivity. Qed.

Lemma Walk_app fn entries1 entries2 st :
  Walk fn (entries1 ++ entries2) st
  = match Walk fn entries1 st with
    | Panics value => Panics value
    | Returns (Some err, st') => Returns (Some err, st')
    | Returns (None, st') => Walk fn entries2 st'
    end.
Proof.
  revert st. induction entries1 as [|entry entries1 IH]; intros st.
  - reflexivity.
  - cbn [app Walk].
    destruct (fn st entry) as [[[err|] st']|value]; (reflexivity || apply IH).
Qed.

Lemma importsLoop_runInv v0 importerMeta path imports st :
  runInv v0 st →
  runInv v0 (importsLoop ignoredPackages importerMeta path imports st).
Proof.
  revert st. induction imports as [|imp imports IH]; intros st Hinv.
  - exact Hinv.
  - cbn [importsLoop]. destruct (isIgnored imp ignoredPackages).
    + apply IH, Hinv.
    + rewrite validateImport_unfold. apply IH.
      destruct Hinv as [Hreach Halias]. split; cbn [fst].
      * apply reachable_lookup, Hreach.
      * rewrite fileMetadata_alias. exact Halias.
Qed.

(** The callback returns the [nil] error whenever it returns. *)
Lemma walkFn_nil st entry result st' :
  walkFn ignoreTests ignoredPackages st entry = Returns (result, st') →
  result = None.
Proof.
  unfold walkFn. destruct (weInfo entry) as [fi|]; [|discriminate].
  repeat (match goal with
          | |- context [if ?b then Returns (None, st) else _] => destruct b
          end; [intros [= <- _]; reflexivity|]).
  destruct (weParse entry) as [imports|err]; [|discriminate].
  destruct (fileMetadata st.1 (wePath entry)) as [importerMeta v].
  case_decide; intros [= <- _]; reflexivity.
Qed.

Lemma walkFn_runInv v0 st entry result st' :
  runInv v0 st →
  walkFn ignoreTests ignoredPackages st entry = Returns (result, st') →
  runInv v0 st'.
Proof.
  intros Hinv. unfold walkFn.
  destruct (weInfo entry) as [fi|]; [|discriminate].
  repeat (match goal with
          | |- context [if ?b then Returns (None, st) else _] => destruct b
          end; [intros [= _ <-]; exact Hinv|]).
  destruct (weParse entry) as [imports|err]; [|discriminate].
  assert (runInv v0 ((fileMetadata st.1 (wePath entry)).2, st.2)) as Hinv'.
  { destruct Hinv as [Hreach Halias]. split; cbn [fst].
    - apply reachable_lookup, Hreach.
    - rewrite fileMetadata_alias. exact Halias. }
  destruct (fileMetadata st.1 (wePath entry)) as [importerMeta v].
  case_decide; intros [= _ <-]; [exact Hinv'|].
  apply importsLoop_runInv, Hinv'.
Qed.

Lemma Walk_runInv v0 entries st result st' :
  runInv v0 st →
  Walk (walkFn ignoreTests ignoredPackages) entries st
  = Returns (result, st') →
  runInv v0 st'.
Proof.
  revert st. induction entries as [|entry entries IH]; intros st Hinv.
  - intros [= _ <-]. exact Hinv.
  - cbn [Walk].
    destruct (walkFn ignoreTests ignoredPackages st entry)
      as [[[err|] st1]|value] eqn:Hstep; [| |discriminate].
    + intros [= _ <-]. exact (walkFn_runInv _ _ _ _ _ Hinv Hstep).
    + apply IH. exact (walkFn_runInv _ _ _ _ _ Hinv Hstep).
Qed.

(** So does the walk, and [Validate] never takes its error return. *)
Lemma Walk_nil entries st result st' :
  Walk (walkFn ignoreTests ignoredPackages) entries st
  = Returns (result, st') →
  result = None.
Proof.
  revert st. induction entries as [|entry entries IH]; intros st.
  - intros [= <- _]. reflexivity.
  - cbn [Walk].
    destruct (walkFn ignoreTests ignoredPackages st entry)
      as [[[err|] st1]|value] eqn:Hstep; [| |discriminate].
    + apply walkFn_nil in Hstep. discriminate.
    + apply IH.
Qed.

Lemma Validate_resErr v root result v' :
  Validate v root ignoreTests ignoredPackages = Returns (result, v') →
  resErr result = None.
Proof.
  unfold Validate.
  destruct (Walk (walkFn ignoreTests ignoredPackages) root (v, []))
    as [[[err|] [v1 errors]]|value] eqn:Hwalk; [| |discriminate].
  - apply Walk_nil in Hwalk. discriminate.
  - intros [= <- _]. reflexivity.
Qed.

(** A run leaves a validator that the program can hold. *)
Lemma Validate_reachable v root result v' :
  reachable v →
  Validate v root ignoreTests ignoredPackages = Returns (result, v') →
  reachable v'.
Proof.
  intros Hreach. unfold Validate.
  destruct (Walk (walkFn ignoreTests ignoredPackages) root (v, []))
    as [[walked [v1 errors]]|value] eqn:Hwalk; [|discriminate].
  assert (runInv v (v1, errors)) as [Hv1 _].
  { apply (Walk_runInv v root (v, []) walked); [|exact Hwalk].
    split; [exact Hreach | reflexivity]. }
  destruct walked; intros [= _ <-]; exact Hv1.
Qed.

(** Two entries that the callback treats alike in every state of a run can
    be exchanged in the tree. *)
Lemma Validate_exchange v before entry1 entry2 after :
  reachable v →
  (∀ st, runInv v st →
     walkFn ignoreTests ignoredPackages st entry1
     = walkFn ignoreTests ignoredPackages st entry2) →
  Validate v (before ++ entry1 :: after) ignoreTests ignoredPackages
  = Validate v (before ++ entry2 :: after) ignoreTests ignoredPackages.
Proof.
  intros Hreach Hsame. unfold Validate. rewrite !Walk_app.
  destruct (Walk (walkFn ignoreTests ignoredPackages) before (v, []))
    as [[[err|] st]|value] eqn:Hbefore; [reflexivity| |reflexivity].
  cbn [Walk]. rewrite Hsame; [reflexivity|].
  apply (Walk_runInv v before (v, []) None st); [|exact Hbefore].
  split; [exact Hreach | reflexivity].
Qed.

Lemma Validate_exchange_any v before entry1 entry2 after :
  (∀ st, walkFn ignoreTests ignoredPackages st entry1
         = walkFn ignoreTests ignoredPackages st entry2) →
  Validate v (before ++ entry1 :: after) ignoreTests ignoredPackages
  = Validate v (before ++ entry2 :: after) ignoreTests ignoredPackages.
Proof.
  intros Hsame. unfold Validate. rewrite !Walk_app.
  destruct (Walk (walkFn ignoreTests ignoredPackages) before (v, []))
    as [[[err|] st]|value]; [reflexivity| |reflexivity].
  cbn [Walk]. rewrite Hsame. reflexivity.
Qed.

(** The callback on an entry it goes on to parse. *)
Lemma walkFn_discovered st entry :
  discovered ignoreTests entry = true →
  walkFn ignoreTests ignoredPackages st entry
  = match weParse entry with
    | ParseFailure err => Panics (PanicError err)
    | ParsedImports imports =>
        let importerMeta := (fileMetadata st.1 (wePath entry)).1 in
        let v := (fileMetadata st.1 (wePath entry)).2 in
        if decide (mdLayer importerMeta = "" ∨ mdModule importerMeta = "")
        then Returns (None, (v, st.2))
        else Returns (None,
                      importsLoop ignoredPackages importerMeta
                        (wePath entry) imports (v, st.2))
    end.
Proof.
  unfold discovered, walkFn. destruct (weInfo entry) as [fi|]; [|discriminate].
  rewrite !andb_true_iff, !negb_true_iff.
  intros [[[[-> ->] ->] ->] ->]. cbn [negb].
  destruct (weParse entry) as [imports|err]; [|reflexivity].
  destruct (fileMetadata st.1 (wePath entry)) as [importerMeta v].
  reflexivity.
Qed.

(** The callback sees the import list only behind the guards. *)
Lemma walkFn_filtered st entry imports :
  discovered ignoreTests entry = false →
  walkFn ignoreTests ignoredPackages st (withImports entry imports)
  = walkFn ignoreTests ignoredPackages st entry.
Proof.
  unfold discovered, walkFn. cbn [withImports wePath weInfo weParse].
  destruct (weInfo entry) as [fi|]; [|reflexivity].
  destruct (IsDir fi); [reflexivity|].
  destruct (GoStrings.HasSuffix (wePath entry) ".go"); [|reflexivity].
  destruct (ignoreTests && GoStrings.HasSuffix (wePath entry) "_test.go");
    [reflexivity|].
  destruct (GoStrings.Contains (wePath entry) "/vendor/"); [reflexivity|].
  destruct (GoStrings.Contains (wePath entry) "/."); [reflexivity|].
  discriminate.
Qed.

End run.

Lemma withImports_same (entry : WalkEntry) (imports : list string) :
  weParse entry = ParsedImports imports → withImports entry imports = entry.
Proof. destruct entry as [path fi parse]. cbn. intros ->. reflexivity. Qed.

Lemma discovered_withImports (ignoreTests : bool) (entry : WalkEntry)
    (imports : list string) :
  discovered ignoreTests (withImports entry imports)
  = discovered ignoreTests entry.
Proof. reflexivity. Qed.

(** The callback treats alike two import lists that the import loop does. *)
Lemma walkFn_imports (ignoreTests : bool) (ignoredPackages : list string)
    (st : RunState) (entry : WalkEntry) (imports1 imports2 : list string) :
  (∀ importerMeta path st',
     importsLoop ignoredPackages importerMeta path imports1 st'
     = importsLoop ignoredPackages importerMeta path imports2 st') →
  walkFn ignoreTests ignoredPackages st (withImports entry imports1)
  = walkFn ignoreTests ignoredPackages st (withImports entry imports2).
Proof.
  intros Hloop. destruct (discovered ignoreTests entry) eqn:Hdiscovered.
  - rewrite !walkFn_discovered by exact Hdiscovered.
    cbn [withImports wePath weParse]. rewrite Hloop. reflexivity.
  - rewrite !walkFn_filtered by exact Hdiscovered. reflexivity.
Qed.

(** A parse failure is not returned: the run of the sample panics. *)
Lemma Validate_parse_failure_panics :
  Validate (NewValidator sampleAlias)
    [brokenFile "modA/domain/user.go" "expected package"] false []
  = Panics (PanicError "expected package")
  ∧ ¬ ∃ result,
      Validate (NewValidator sampleAlias)
        [brokenFile "modA/domain/user.go" "expected package"] false []
      = Returns result.
Proof.
  split; [vm_compute; reflexivity|].
  intros [result Hreturns]. vm_compute in Hreturns. discriminate.
Qed.

(** C4, amended.  When the run reaches a file that passes the guards of the
    callback and the file cannot be parsed for its imports, the whole run
    stops there with a panic that carries the parse error: [Validate] returns
    nothing to its caller, neither an error value nor a violation list, and
    the file is not skipped. *)
Theorem Validate_parse_failure
    (ignoreTests : bool) (ignoredPackages : list string) (v : Validator)
    (before : list WalkEntry) (entry : WalkEntry) (after : list WalkEntry)
    (err : string) (st : RunState) :
  Walk (walkFn ignoreTests ignoredPackages) before (v, [])
  = Returns (None, st) →
  discovered ignoreTests entry = true →
  weParse entry = ParseFailure err →
  Validate v (before ++ entry :: after) ignoreTests ignoredPackages
  = Panics (PanicError err).
Proof.
  intros Hbefore Hdiscovered Hparse. unfold Validate.
  rewrite Walk_app, Hbefore. cbn [Walk].
  rewrite (walkFn_discovered _ _ _ _ Hdiscovered), Hparse. reflexivity.
Qed.

Lemma Validate_parse_failure_witness :
  Validate (NewValidator sampleAlias)
    ([sourceFile "modA/domain/user.go" ["modA/infra/db"]]
     ++ brokenFile "modA/infra/db.go" "expected package"
     :: [sourceFile "modA/infra/gateway.go" ["modB/domain/entity"]])
    false []
  = Panics (PanicError "expected package").
Proof.
  eapply (Validate_parse_failure false [] (NewValidator sampleAlias)).
  - vm_compute. reflexivity.
  - vm_compute. reflexivity.
  - reflexivity.
Defined.

(** C6.  A file whose own classification has an empty Layer or an empty
    Module is skipped: the callback returns with the violation list as it
    was and with the cache touched at the file's own path only, so none of
    its imports is classified or checked, and the outcome of [Validate] is
    that of the tree in which the file declares no import. *)
Theorem Validate_skips_unclassified
    (ignoreTests : bool) (ignoredPackages : list string) (v : Validator)
    (before : list WalkEntry) (entry : WalkEntry) (after : list WalkEntry)
    (imports : list string) :
  reachable v →
  weParse entry = ParsedImports imports →
  mdLayer (ParseLayerMetadata (wePath entry) (alias v)) = ""
  ∨ mdModule (ParseLayerMetadata (wePath entry) (alias v)) = "" →
  (∀ st, runInv v st → discovered ignoreTests entry = true →
     walkFn ignoreTests ignoredPackages st entry
     = Returns (None, ((fileMetadata st.1 (wePath entry)).2, st.2)))
  ∧ Validate v (before ++ entry :: after) ignoreTests ignoredPackages
    = Validate v (before ++ withImports entry [] :: after)
        ignoreTests ignoredPackages.
Proof.
  intros Hreach Hparse Hblank.
  assert (∀ st imports', runInv v st → discovered ignoreTests entry = true →
            walkFn ignoreTests ignoredPackages st (withImports entry imports')
            = Returns (None, ((fileMetadata st.1 (wePath entry)).2, st.2))) as Hskip.
  { intros st imports' [Hst Halias] Hdiscovered.
    rewrite walkFn_discovered by exact Hdiscovered.
    cbn [withImports wePath weParse].
    rewrite (fileMetadata_value _ _ Hst), Halias.
    rewrite decide_True by exact Hblank. reflexivity. }
  split.
  - intros st Hinv Hdiscovered.
    rewrite <- (withImports_same _ _ Hparse) at 1.
    apply Hskip; assumption.
  - apply Validate_exchange; [exact Hreach|]. intros st Hinv.
    rewrite <- (withImports_same _ _ Hparse) at 1.
    destruct (discovered ignoreTests entry) eqn:Hdiscovered.
    + rewrite !Hskip by (assumption || reflexivity). reflexivity.
    + rewrite !walkFn_filtered by exact Hdiscovered. reflexivity.
Qed.

Lemma Validate_skips_unclassified_witness :
  let v := NewValidator sampleAlias in
  let entry := sourceFile "domain/user.go" ["modA/infra/db"] in
  let before := [sourceFile "modA/infra/db.go" ["modA/domain/user"]] in
  let after := [sourceFile "modA/infra/gateway.go" ["modB/domain/entity"]] in
  (∀ st, runInv v st → discovered false entry = true →
     walkFn false [] st entry
     = Returns (None, ((fileMetadata st.1 (wePath entry)).2, st.2)))
  ∧ Validate v (before ++ entry :: after) false []
    = Validate v (before ++ withImports entry [] :: after) false [].
Proof.
  intros v entry before after.
  apply (Validate_skips_unclassified false [] v before entry after
           (literal <$> ["modA/infra/db"])).
  - apply reachable_new.
  - reflexivity.
  - right. vm_compute. reflexivity.
Defined.

(** C9.  An import whose literal contains one of the ignored substrings is
    passed over before it is classified: the import loop leaves the cache and
    the violation list as they were, so the outcome of [Validate] is that of
    the tree without this import, whatever the decision rule would say of
    it. *)
Theorem Validate_ignores_import
    (ignoreTests : bool) (ignoredPackages : list string) (v : Validator)
    (before : list WalkEntry) (entry : WalkEntry) (after : list WalkEntry)
    (imports1 : list string) (imp : string) (imports2 : list string)
    (ignoredPackage pre post : string) :
  weParse entry = ParsedImports (imports1 ++ imp :: imports2) →
  ignoredPackage ∈ ignoredPackages →
  imp = pre +:+ ignoredPackage +:+ post →
  (∀ importerMeta path st,
     importsLoop ignoredPackages importerMeta path (imp :: imports2) st
     = importsLoop ignoredPackages importerMeta path imports2 st)
  ∧ Validate v (before ++ entry :: after) ignoreTests ignoredPackages
    = Validate v (before ++ withImports entry (imports1 ++ imports2) :: after)
        ignoreTests ignoredPackages.
Proof.
  intros Hparse Hin Himp.
  assert (isIgnored imp ignoredPackages = true) as Hignored.
  { apply isIgnored_spec. exists ignoredPackage, pre, post. auto. }
  split.
  - intros importerMeta path st. apply importsLoop_ignored, Hignored.
  - rewrite <- (withImports_same _ _ Hparse) at 1.
    apply Validate_exchange_any. intros st. apply walkFn_imports.
    intros importerMeta path st'. rewrite !importsLoop_app.
    apply importsLoop_ignored, Hignored.
Qed.

Lemma Validate_ignores_import_witness :
  let v := NewValidator sampleAlias in
  let imp := literal "modA/infra/db" in
  let entry := sourceFile "modA/domain/user.go" ["modA/infra/db"] in
  (∀ importerMeta path st,
     importsLoop ["infra"] importerMeta path (imp :: []) st
     = importsLoop ["infra"] importerMeta path [] st)
  ∧ Validate v ([] ++ entry :: []) false ["infra"]
    = Validate v ([] ++ withImports entry ([] ++ []) :: []) false ["infra"].
Proof.
  intros v imp entry.
  apply (Validate_ignores_import false ["infra"] v [] entry [] [] imp []
           "infra" (quote +:+ "modA/") ("/db" +:+ quote)).
  - reflexivity.
  - apply list_elem_of_here.
  - vm_compute. reflexivity.
Defined.

(** * The scenarios of the specification, run on the model *)

Example Split_samples :
  GoStrings.Split "modA/domain/user.go" "/" = ["modA"; "domain"; "user.go"]
  ∧ GoStrings.Split "" "/" = [""]
  ∧ GoStrings.Split "/a//" "/" = [""; "a"; ""; ""].
Proof. repeat split. Qed.

Example importPathOf_sample :
  importPathOf (literal "modA/infra/db") = "modA/infra/db".
Proof. reflexivity. Qed.

Example ParseLayerMetadata_samples :
  ParseLayerMetadata "modA/domain/user.go" sampleAlias
  = {| mdModule := "modA"; mdLayer := LayerDomain |}
  ∧ ParseLayerMetadata "modA/infra/db" sampleAlias
    = {| mdModule := "modA"; mdLayer := LayerInfrastructure |}
  ∧ ParseLayerMetadata "domain/user.go" sampleAlias
    = {| mdModule := ""; mdLayer := LayerDomain |}
  ∧ ParseLayerMetadata "thirdparty/lib" sampleAlias = zeroMetadata.
Proof. vm_compute. repeat split. Qed.

Example Validate_sample :
  ∃ v',
    Validate (NewValidator sampleAlias)
      [sourceFile "modA/domain/user.go" ["modA/infra/db"];
       sourceFile "modA/infra/db.go" ["modA/domain/user"];
       sourceFile "modA/infra/gateway.go"
         ["modB/interfaces/api"; "modB/domain/entity"];
       sourceFile "modA/application/service.go" ["thirdparty/lib"]]
      false []
    = Returns
        ({| resOk := false;
            resErrors :=
              ["you cannot import infrastructure Layer (modA/infra/db) to domain Layer (modA/domain/user.go)";
               "trying to import domain Layer (modB/domain/entity) to infrastructure Layer (modA/infra/gateway.go) between modB and modA modules, you can only import interfaces Layer to infrastructure Layer"];
            resErr := None |}, v').
Proof. eexists. vm_compute. reflexivity. Qed.

(** * Further properties of the run *)

Section run_more.
Context (ignoreTests : bool) (ignoredPackages : list string).

(** A property that the callback keeps is kept by the walk. *)
Lemma Walk_invariant (P : RunState → Prop) entries st result st' :
  (∀ st entry result st',
     In entry entries → P st →
     walkFn ignoreTests ignoredPackages st entry = Returns (result, st') →
     P st') →
  P st →
  Walk (walkFn ignoreTests ignoredPackages) entries st
  = Returns (result, st') →
  P st'.
Proof.
  revert st. induction entries as [|entry entries IH]; intros st Hstep HP.
  - intros [= _ <-]. exact HP.
  - cbn [Walk].
    destruct (walkFn ignoreTests ignoredPackages st entry)
      as [[[err|] st1]|value] eqn:Hentry; [| |discriminate].
    + apply walkFn_nil in Hentry. discriminate.
    + apply IH.
      * intros st2 entry2 result2 st2' Hin. apply Hstep. right. exact Hin.
      * apply (Hstep st entry None st1); [left; reflexivity|exact HP|exact Hentry].
Qed.

(** What a returning [Validate] says about the walk it made. *)
Lemma Validate_Returns v root result v' :
  Validate v root ignoreTests ignoredPackages = Returns (result, v') →
  Walk (walkFn ignoreTests ignoredPackages) root (v, [])
  = Returns (None, (v', resErrors result))
  ∧ result = {| resOk := bool_decide (length (resErrors result) = 0%nat);
                resErrors := resErrors result; resErr := None |}.
Proof.
  unfold Validate.
  destruct (Walk (walkFn ignoreTests ignoredPackages) root (v, []))
    as [[[err|] [v1 errors]]|value] eqn:Hwalk; [| |discriminate].
  - apply Walk_nil in Hwalk. discriminate.
  - intros [= <- <-]. split; reflexivity.
Qed.

(** The violation list is only ever extended: the loops do to a state with
    earlier violations what they do to the state without them. *)
Lemma importsLoop_frame importerMeta path imports st :
  importsLoop ignoredPackages importerMeta path imports st
  = ((importsLoop ignoredPackages importerMeta path imports (st.1, [])).1,
     st.2 ++ (importsLoop ignoredPackages importerMeta path imports
                (st.1, [])).2).
Proof.
  revert st. induction imports as [|imp imports IH]; intros [v errors].
  - cbn. rewrite app_nil_r. reflexivity.
  - cbn [importsLoop fst snd]. destruct (isIgnored imp ignoredPackages).
    + apply (IH (v, errors)).
    + destruct (validateImport v imp importerMeta path)
        as [validationErrors v1].
      rewrite (IH (v1, errors ++ validationErrors)).
      rewrite (IH (v1, [] ++ validationErrors)).
      cbn [fst snd app]. rewrite app_assoc. reflexivity.
Qed.

Lemma walkFn_frame st entry :
  walkFn ignoreTests ignoredPackages st entry
  = match walkFn ignoreTests ignoredPackages (st.1, []) entry with
    | Panics value => Panics value
    | Returns (result, st') => Returns (result, (st'.1, st.2 ++ st'.2))
    end.
Proof.
  destruct st as [v errors]. unfold walkFn. cbn [fst snd].
  destruct (weInfo entry) as [fi|]; [|reflexivity].
  repeat (match goal with
          | |- context [if ?b then Returns (None, (v, errors)) else _] =>
              destruct b
          end; [cbn; rewrite app_nil_r; reflexivity|]).
  destruct (weParse entry) as [imports|err]; [|reflexivity].
  destruct (fileMetadata v (wePath entry)) as [importerMeta v1].
  case_decide.
  - cbn. rewrite app_nil_r. reflexivity.
  - rewrite importsLoop_frame. reflexivity.
Qed.

Lemma Walk_frame entries st :
  Walk (walkFn ignoreTests ignoredPackages) entries st
  = match Walk (walkFn ignoreTests ignoredPackages) entries (st.1, []) with
    | Panics value => Panics value
    | Returns (result, st') => Returns (result, (st'.1, st.2 ++ st'.2))
    end.
Proof.
  revert st. induction entries as [|entry entries IH]; intros [v errors].
  - cbn. rewrite app_nil_r. reflexivity.
  - cbn [Walk fst snd]. rewrite (walkFn_frame (v, errors)). cbn [fst snd].
    destruct (walkFn ignoreTests ignoredPackages (v, []) entry)
      as [[[err|] [v1 errors1]]|value]; [| |reflexivity].
    + cbn. reflexivity.
    + cbn [fst snd]. rewrite (IH (v1, errors ++ errors1)).
      rewrite (IH (v1, errors1)). cbn [fst snd].
      destruct (Walk (walkFn ignoreTests ignoredPackages) entries (v1, []))
        as [[result [v2 errors2]]|value]; [|reflexivity].
      cbn [fst snd]. rewrite app_assoc. reflexivity.
Qed.

End run_more.

(** X1.  Whenever [Validate] returns, the error it returns is [nil], and
    its flag is true exactly when the violation list is empty. *)
Theorem Validate_returns_nil_error
    (v : Validator) (root : list WalkEntry) (ignoreTests : bool)
    (ignoredPackages : list string) (result : ValidateResult)
    (v' : Validator) :
  Validate v root ignoreTests ignoredPackages = Returns (result, v') →
  resErr result = None ∧ (resOk result = true ↔ resErrors result = []).
Proof.
  intros Hreturns. apply Validate_Returns in Hreturns.
  destruct Hreturns as [_ ->]. cbn [resErr resOk resErrors].
  split; [reflexivity|]. rewrite bool_decide_eq_true.
  destruct (resErrors result); cbn; split; (done || lia).
Qed.

Lemma Validate_returns_nil_error_witness :
  ∃ result v',
    Validate (NewValidator sampleAlias) sampleTree false []
    = Returns (result, v')
    ∧ resErr result = None
    ∧ (resOk result = true ↔ resErrors result = []).
Proof.
  eexists _, _. split; [vm_compute; reflexivity|].
  eapply (Validate_returns_nil_error (NewValidator sampleAlias) sampleTree
            false []).
  vm_compute. reflexivity.
Defined.

(** X2.  Two runs in a row on one validator report what a single run over
    both trees reports: the violations of the first tree followed by those
    of the second, with the flag true when both flags are, and the same
    validator left behind. *)
Theorem Validate_sequential
    (v : Validator) (root1 root2 : list WalkEntry) (ignoreTests : bool)
    (ignoredPackages : list string) (result1 result2 : ValidateResult)
    (v1 v2 : Validator) :
  Validate v root1 ignoreTests ignoredPackages = Returns (result1, v1) →
  Validate v1 root2 ignoreTests ignoredPackages = Returns (result2, v2) →
  Validate v (root1 ++ root2) ignoreTests ignoredPackages
  = Returns ({| resOk := resOk result1 && resOk result2;
                resErrors := resErrors result1 ++ resErrors result2;
                resErr := None |}, v2).
Proof.
  intros Hrun1 Hrun2.
  apply Validate_Returns in Hrun1. destruct Hrun1 as [Hwalk1 Hresult1].
  apply Validate_Returns in Hrun2. destruct Hrun2 as [Hwalk2 Hresult2].
  unfold Validate. rewrite Walk_app, Hwalk1, Walk_frame. cbn [fst snd].
  rewrite Hwalk2. cbn [fst snd]. f_equal. f_equal.
  rewrite Hresult1, Hresult2. cbn [resOk resErrors]. f_equal.
  destruct (resErrors result1), (resErrors result2); reflexivity.
Qed.

Lemma Validate_sequential_witness :
  ∃ result1 result2 v1 v2,
    Validate (NewValidator sampleAlias) (take 2 sampleTree) false []
    = Returns (result1, v1)
    ∧ Validate v1 (drop 2 sampleTree) false [] = Returns (result2, v2)
    ∧ Validate (NewValidator sampleAlias)
        (take 2 sampleTree ++ drop 2 sampleTree) false []
      = Returns ({| resOk := resOk result1 && resOk result2;
                    resErrors := resErrors result1 ++ resErrors result2;
                    resErr := None |}, v2).
Proof.
  eexists _, _, _, _.
  split; [vm_compute; reflexivity|]. split; [vm_compute; reflexivity|].
  eapply Validate_sequential; [vm_compute; reflexivity | vm_compute; reflexivity].
Defined.

Section run_reference.
Context (ignoreTests : bool) (ignoredPackages : list string).

Lemma checkImport_length importMeta importPath importerMeta path :
  (length (checkImport importMeta importPath importerMeta path) ≤ 1)%nat.
Proof. unfold checkImport. repeat case_decide; cbn; lia. Qed.

Lemma importsLoop_length importerMeta path imports st :
  (length (importsLoop ignoredPackages importerMeta path imports st).2
   ≤ length st.2 + length imports)%nat.
Proof.
  revert st. induction imports as [|imp imports IH]; intros st.
  - cbn. lia.
  - cbn [importsLoop]. destruct (isIgnored imp ignoredPackages).
    + specialize (IH st). cbn [length]. lia.
    + rewrite validateImport_unfold.
      specialize (IH ((fileMetadata st.1 (importPathOf imp)).2,
                      st.2 ++ checkImport
                                (fileMetadata st.1 (importPathOf imp)).1
                                (importPathOf imp) importerMeta path)).
      cbn [snd] in IH. rewrite length_app in IH.
      pose proof (checkImport_length
                    (fileMetadata st.1 (importPathOf imp)).1
                    (importPathOf imp) importerMeta path).
      cbn [length]. lia.
Qed.

Lemma walkFn_length st entry result st' :
  walkFn ignoreTests ignoredPackages st entry = Returns (result, st') →
  (length st'.2 ≤ length st.2 + importCount [entry])%nat.
Proof.
  unfold walkFn. destruct (weInfo entry) as [fi|]; [|discriminate].
  repeat (match goal with
          | |- context [if ?b then Returns (None, st) else _] => destruct b
          end; [intros [= _ <-]; lia|]).
  unfold importCount. cbn [sum_list_with].
  destruct (weParse entry) as [imports|err]; [|discriminate].
  destruct (fileMetadata st.1 (wePath entry)) as [importerMeta v].
  case_decide; intros [= _ <-]; [cbn; lia|].
  pose proof (importsLoop_length importerMeta (wePath entry) imports
                (v, st.2)) as Hbound.
  cbn [snd] in Hbound. lia.
Qed.

Lemma Walk_length entries st result st' :
  Walk (walkFn ignoreTests ignoredPackages) entries st
  = Returns (result, st') →
  (length st'.2 ≤ length st.2 + importCount entries)%nat.
Proof.
  revert st. induction entries as [|entry entries IH]; intros st.
  - intros [= _ <-]. lia.
  - cbn [Walk].
    destruct (walkFn ignoreTests ignoredPackages st entry)
      as [[[err|] st1]|value] eqn:Hentry; [| |discriminate].
    + apply walkFn_nil in Hentry. discriminate.
    + intros Hrest. apply IH in Hrest. apply walkFn_length in Hentry.
      unfold importCount in *. cbn [sum_list_with] in *. lia.
Qed.

(** The loops keep what the cache holds and the alias table. *)
Lemma importsLoop_keeps importerMeta path imports st other metadata :
  filesMetadata st.1 !! other = Some metadata →
  filesMetadata
    (importsLoop ignoredPackages importerMeta path imports st).1 !! other
  = Some metadata.
Proof.
  revert st. induction imports as [|imp imports IH]; intros st Hother.
  - exact Hother.
  - cbn [importsLoop]. destruct (isIgnored imp ignoredPackages).
    + apply IH, Hother.
    + rewrite validateImport_unfold. apply IH. cbn [fst].
      apply fileMetadata_keeps, Hother.
Qed.

Lemma walkFn_keeps st entry result st' other metadata :
  filesMetadata st.1 !! other = Some metadata →
  walkFn ignoreTests ignoredPackages st entry = Returns (result, st') →
  filesMetadata st'.1 !! other = Some metadata.
Proof.
  intros Hother. unfold walkFn.
  destruct (weInfo entry) as [fi|]; [|discriminate].
  repeat (match goal with
          | |- context [if ?b then Returns (None, st) else _] => destruct b
          end; [intros [= _ <-]; exact Hother|]).
  destruct (weParse entry) as [imports|err]; [|discriminate].
  pose proof (fileMetadata_keeps st.1 (wePath entry) _ _ Hother) as Hkept.
  destruct (fileMetadata st.1 (wePath entry)) as [importerMeta v].
  case_decide; intros [= _ <-]; [exact Hkept|].
  apply importsLoop_keeps. exact Hkept.
Qed.

(** With a validator the program can hold, the loops add the violations that
    [ParseLayerMetadata] alone decides. *)
Lemma importsLoop_errors v0 importerMeta path imports st :
  runInv v0 st →
  (importsLoop ignoredPackages importerMeta path imports st).2
  = st.2 ++ (imports ≫= importErrors (alias v0) ignoredPackages
                          importerMeta path).
Proof.
  revert st. induction imports as [|imp imports IH]; intros st Hinv.
  - cbn. rewrite app_nil_r. reflexivity.
  - cbn [importsLoop mbind list_bind]. unfold importErrors at 1.
    destruct (isIgnored imp ignoredPackages) eqn:Hignored.
    + rewrite IH by exact Hinv. reflexivity.
    + rewrite validateImport_unfold.
      destruct Hinv as [Hreach Halias].
      rewrite IH.
      * cbn [fst snd]. rewrite (fileMetadata_value _ _ Hreach), Halias.
        rewrite app_assoc. reflexivity.
      * split; cbn [fst].
        -- apply reachable_lookup, Hreach.
        -- rewrite fileMetadata_alias. exact Halias.
Qed.

(** An entry stopped by the guards leaves the state as it is. *)
Lemma walkFn_skipped st entry result st' :
  discovered ignoreTests entry = false →
  walkFn ignoreTests ignoredPackages st entry = Returns (result, st') →
  st' = st.
Proof.
  unfold discovered, walkFn.
  destruct (weInfo entry) as [fi|]; [|discriminate].
  destruct (IsDir fi); [intros _ [= _ <-]; reflexivity|].
  destruct (GoStrings.HasSuffix (wePath entry) ".go");
    [|intros _ [= _ <-]; reflexivity].
  destruct (ignoreTests && GoStrings.HasSuffix (wePath entry) "_test.go");
    [intros _ [= _ <-]; reflexivity|].
  destruct (GoStrings.Contains (wePath entry) "/vendor/");
    [intros _ [= _ <-]; reflexivity|].
  destruct (GoStrings.Contains (wePath entry) "/.");
    [intros _ [= _ <-]; reflexivity|].
  discriminate.
Qed.

Lemma walkFn_errors v0 st entry result st' :
  runInv v0 st →
  walkFn ignoreTests ignoredPackages st entry = Returns (result, st') →
  st'.2 = st.2 ++ fileErrors (alias v0) ignoreTests ignoredPackages entry.
Proof.
  intros Hinv. unfold fileErrors.
  destruct (discovered ignoreTests entry) eqn:Hdiscovered.
  - rewrite walkFn_discovered by exact Hdiscovered.
    destruct (weParse entry) as [imports|err]; [|discriminate].
    cbn zeta. destruct Hinv as [Hreach Halias].
    rewrite (fileMetadata_value _ _ Hreach), Halias.
    destruct (decide (_ ∨ _)); intros [= _ <-];
      [cbn; rewrite app_nil_r; reflexivity|].
    rewrite (importsLoop_errors v0).
    + reflexivity.
    + split; cbn [fst].
      * apply reachable_lookup, Hreach.
      * rewrite fileMetadata_alias. exact Halias.
  - intros Hentry. rewrite (walkFn_skipped _ _ _ _ Hdiscovered Hentry).
    rewrite app_nil_r. reflexivity.
Qed.

Lemma Walk_errors v0 entries st result st' :
  runInv v0 st →
  Walk (walkFn ignoreTests ignoredPackages) entries st
  = Returns (result, st') →
  st'.2 = st.2 ++ (entries ≫= fileErrors (alias v0) ignoreTests
                                ignoredPackages).
Proof.
  revert st. induction entries as [|entry entries IH]; intros st Hinv.
  - intros [= _ <-]. cbn. rewrite app_nil_r. reflexivity.
  - cbn [Walk].
    destruct (walkFn ignoreTests ignoredPackages st entry)
      as [[[err|] st1]|value] eqn:Hentry; [| |discriminate].
    + apply walkFn_nil in Hentry. discriminate.
    + intros Hrest. apply IH in Hrest.
      * rewrite Hrest, (walkFn_errors v0 _ _ _ _ Hinv Hentry).
        cbn [mbind list_bind]. rewrite app_assoc. reflexivity.
      * exact (walkFn_runInv _ _ _ _ _ _ _ Hinv Hentry).
Qed.

(** Whether the callback panics, and with what, is decided by the entry. *)
Lemma walkFn_Panics st1 st2 entry value :
  walkFn ignoreTests ignoredPackages st1 entry = Panics value →
  walkFn ignoreTests ignoredPackages st2 entry = Panics value.
Proof.
  unfold walkFn. destruct (weInfo entry) as [fi|]; [intros Hpanic|done].
  repeat (match goal with
          | H : context [if ?b then Returns _ else _] |- _ =>
              destruct b; [discriminate|]
          end).
  destruct (weParse entry) as [imports|err]; [|exact Hpanic].
  destruct (fileMetadata st1.1 (wePath entry)) as [importerMeta v].
  case_decide; discriminate.
Qed.

Lemma Walk_independent v0 entries st1 st2 :
  runInv v0 st1 → runInv v0 st2 → st1.2 = st2.2 →
  match Walk (walkFn ignoreTests ignoredPackages) entries st1,
        Walk (walkFn ignoreTests ignoredPackages) entries st2 with
  | Returns (result1, st1'), Returns (result2, st2') =>
      result1 = result2 ∧ st1'.2 = st2'.2
  | Panics value1, Panics value2 => value1 = value2
  | _, _ => False
  end.
Proof.
  revert st1 st2. induction entries as [|entry entries IH];
    intros st1 st2 Hinv1 Hinv2 Herrors.
  - cbn. split; [reflexivity|exact Herrors].
  - cbn [Walk].
    destruct (walkFn ignoreTests ignoredPackages st1 entry)
      as [[[err1|] st1']|value1] eqn:Hentry1.
    + apply walkFn_nil in Hentry1. discriminate.
    + destruct (walkFn ignoreTests ignoredPackages st2 entry)
        as [[[err2|] st2']|value2] eqn:Hentry2.
      * apply walkFn_nil in Hentry2. discriminate.
      * apply IH.
        -- exact (walkFn_runInv _ _ _ _ _ _ _ Hinv1 Hentry1).
        -- exact (walkFn_runInv _ _ _ _ _ _ _ Hinv2 Hentry2).
        -- rewrite (walkFn_errors v0 _ _ _ _ Hinv1 Hentry1).
           rewrite (walkFn_errors v0 _ _ _ _ Hinv2 Hentry2).
           rewrite Herrors. reflexivity.
      * apply (walkFn_Panics st2 st1) in Hentry2. congruence.
    + apply (walkFn_Panics st1 st2) in Hentry1. rewrite Hentry1.
      reflexivity.
Qed.

End run_reference.

(** X3.  A run reports at most one violation for each import that the files
    of the tree declare. *)
Theorem Validate_violations_bounded
    (v : Validator) (root : list WalkEntry) (ignoreTests : bool)
    (ignoredPackages : list string) (result : ValidateResult)
    (v' : Validator) :
  Validate v root ignoreTests ignoredPackages = Returns (result, v') →
  (length (resErrors result) ≤ importCount root)%nat.
Proof.
  intros Hreturns. apply Validate_Returns in Hreturns.
  destruct Hreturns as [Hwalk _]. apply Walk_length in Hwalk.
  exact Hwalk.
Qed.

Lemma Validate_violations_bounded_witness :
  ∃ result v',
    Validate (NewValidator sampleAlias) sampleTree false []
    = Returns (result, v')
    ∧ (length (resErrors result) ≤ importCount sampleTree)%nat.
Proof.
  eexists _, _. split; [vm_compute; reflexivity|].
  eapply (Validate_violations_bounded (NewValidator sampleAlias) sampleTree
            false []).
  vm_compute. reflexivity.
Defined.

(** X4.  A run never drops or changes what the cache holds: every path
    classified before the run has the same classification after it. *)
Theorem Validate_cache_grows
    (v : Validator) (root : list WalkEntry) (ignoreTests : bool)
    (ignoredPackages : list string) (result : ValidateResult)
    (v' : Validator) (path : string) (metadata : LayerMetadata) :
  Validate v root ignoreTests ignoredPackages = Returns (result, v') →
  filesMetadata v !! path = Some metadata →
  filesMetadata v' !! path = Some metadata.
Proof.
  intros Hreturns Hcached. apply Validate_Returns in Hreturns.
  destruct Hreturns as [Hwalk _].
  apply (Walk_invariant ignoreTests ignoredPackages
           (λ st, filesMetadata st.1 !! path = Some metadata)
           root (v, []) None (v', resErrors result)); [|exact Hcached|exact Hwalk].
  intros st entry walked st' _ Hst Hentry.
  exact (walkFn_keeps _ _ _ _ _ _ _ _ Hst Hentry).
Qed.

Lemma Validate_cache_grows_witness :
  let v := (fileMetadata (NewValidator sampleAlias) "modA/infra/db").2 in
  ∃ result v',
    Validate v (take 1 sampleTree) false [] = Returns (result, v')
    ∧ filesMetadata v' !! "modA/infra/db"
      = Some {| mdModule := "modA"; mdLayer := LayerInfrastructure |}.
Proof.
  intros v. eexists _, _. split; [vm_compute; reflexivity|].
  eapply (Validate_cache_grows v (take 1 sampleTree) false []);
    vm_compute; reflexivity.
Defined.

(** Validators over one alias table report alike. *)
Lemma Validate_same_result
    (v1 v2 : Validator) (root : list WalkEntry) (ignoreTests : bool)
    (ignoredPackages : list string) :
  reachable v1 → reachable v2 → alias v1 = alias v2 →
  resultOf (Validate v1 root ignoreTests ignoredPackages)
  = resultOf (Validate v2 root ignoreTests ignoredPackages).
Proof.
  intros Hreach1 Hreach2 Halias.
  assert (runInv v1 (v1, [])) as Hinv1 by (split; [exact Hreach1|reflexivity]).
  assert (runInv v1 (v2, [])) as Hinv2
    by (split; [exact Hreach2|symmetry; exact Halias]).
  pose proof (Walk_independent ignoreTests ignoredPackages v1 root
                (v1, []) (v2, []) Hinv1 Hinv2 eq_refl) as Hsame.
  unfold Validate.
  destruct (Walk (walkFn ignoreTests ignoredPackages) root (v1, []))
    as [[walked1 [v1' errors1]]|value1];
    destruct (Walk (walkFn ignoreTests ignoredPackages) root (v2, []))
      as [[walked2 [v2' errors2]]|value2]; cbn [fst snd] in Hsame.
  - destruct Hsame as [<- <-]. destruct walked1; reflexivity.
  - destruct walked1; contradiction.
  - contradiction.
  - cbn. rewrite Hsame. reflexivity.
Qed.

(** X5.  The cache does not change what a run reports: on two validators
    the program can hold, over the same alias table, [Validate] returns the
    same flag, violations and error, or panics with the same value. *)
Theorem Validate_cache_independent
    (v1 v2 : Validator) (root : list WalkEntry) (ignoreTests : bool)
    (ignoredPackages : list string) :
  reachable v1 → reachable v2 → alias v1 = alias v2 →
  resultOf (Validate v1 root ignoreTests ignoredPackages)
  = resultOf (Validate v2 root ignoreTests ignoredPackages).
Proof. apply Validate_same_result. Qed.

Lemma Validate_cache_independent_witness :
  resultOf (Validate (lookups (NewValidator sampleAlias)
                        ["modA/infra/db"; "modB/domain/entity"])
              (take 1 sampleTree) false [])
  = resultOf (Validate (NewValidator sampleAlias) (take 1 sampleTree)
                false []).
Proof.
  apply Validate_cache_independent.
  - apply reachable_lookup, reachable_lookup, reachable_new.
  - apply reachable_new.
  - reflexivity.
Defined.

(** X6.  On a validator the program can hold, the violations of a run are
    those that [ParseLayerMetadata] decides without a cache, file by file in
    the order of the walk and, within a file, import by import in the order
    of the declarations; files stopped by the guards or without Layer or
    Module and ignored imports give none. *)
Theorem Validate_reference
    (v : Validator) (root : list WalkEntry) (ignoreTests : bool)
    (ignoredPackages : list string) (result : ValidateResult)
    (v' : Validator) :
  reachable v →
  Validate v root ignoreTests ignoredPackages = Returns (result, v') →
  resErrors result
  = root ≫= fileErrors (alias v) ignoreTests ignoredPackages.
Proof.
  intros Hreach Hreturns. apply Validate_Returns in Hreturns.
  destruct Hreturns as [Hwalk _].
  apply (Walk_errors ignoreTests ignoredPackages v) in Hwalk.
  - exact Hwalk.
  - split; [exact Hreach|reflexivity].
Qed.

Lemma Validate_reference_witness :
  ∃ result v',
    Validate (NewValidator sampleAlias) sampleTree false []
    = Returns (result, v')
    ∧ resErrors result
      = sampleTree ≫= fileErrors (alias (NewValidator sampleAlias)) false [].
Proof.
  eexists _, _. split; [vm_compute; reflexivity|].
  eapply (Validate_reference (NewValidator sampleAlias) sampleTree false []).
  - apply reachable_new.
  - vm_compute. reflexivity.
Defined.

(** An entry stopped by the guards is not parsed. *)
Lemma walkFn_stopped (ignoreTests : bool) (ignoredPackages : list string)
    (st : RunState) (entry : WalkEntry) :
  discovered ignoreTests entry = false →
  is_Some (weInfo entry) →
  walkFn ignoreTests ignoredPackages st entry = Returns (None, st).
Proof.
  intros Hstopped [fi Hinfo].
  destruct (walkFn ignoreTests ignoredPackages st entry)
    as [[walked st']|value] eqn:Hentry.
  - rewrite (walkFn_nil _ _ _ _ _ _ Hentry).
    rewrite (walkFn_skipped _ _ _ _ _ _ Hstopped Hentry). reflexivity.
  - exfalso. revert Hstopped Hentry. unfold discovered, walkFn. rewrite Hinfo.
    destruct (IsDir fi); [discriminate|].
    destruct (GoStrings.HasSuffix (wePath entry) ".go"); [|discriminate].
    destruct (ignoreTests && GoStrings.HasSuffix (wePath entry) "_test.go");
      [discriminate|].
    destruct (GoStrings.Contains (wePath entry) "/vendor/"); [discriminate|].
    destruct (GoStrings.Contains (wePath entry) "/."); discriminate.
Qed.

(** X7.  A directory, a file without the [.go] suffix, a test file when
    tests are ignored, and a file whose path contains [/vendor/] or [/.] do
    not take part in a run: the outcome is that of the tree without the
    entry, even when the file could not be parsed. *)
Theorem Validate_stopped_entry
    (v : Validator) (before : list WalkEntry) (entry : WalkEntry)
    (after : list WalkEntry) (ignoreTests : bool)
    (ignoredPackages : list string) :
  discovered ignoreTests entry = false →
  is_Some (weInfo entry) →
  Validate v (before ++ entry :: after) ignoreTests ignoredPackages
  = Validate v (before ++ after) ignoreTests ignoredPackages.
Proof.
  intros Hstopped Hinfo. unfold Validate. rewrite !Walk_app.
  destruct (Walk (walkFn ignoreTests ignoredPackages) before (v, []))
    as [[[err|] st]|value]; [reflexivity| |reflexivity].
  cbn [Walk]. rewrite (walkFn_stopped _ _ _ _ Hstopped Hinfo). reflexivity.
Qed.

Lemma Validate_stopped_entry_witness :
  Validate (NewValidator sampleAlias)
    (take 1 sampleTree
     ++ brokenFile "modA/vendor/lib/lib.go" "expected package"
     :: drop 3 sampleTree) true []
  = Validate (NewValidator sampleAlias)
      (take 1 sampleTree ++ drop 3 sampleTree) true [].
Proof.
  apply Validate_stopped_entry.
  - vm_compute. reflexivity.
  - eexists. reflexivity.
Defined.

(** X8.  When the walk hands the callback an entry without [FileInfo], as
    [filepath.Walk] does for a root that cannot be examined, the run stops
    with the panic of a nil dereference and [Validate] returns nothing. *)
Theorem Validate_nil_FileInfo
    (v : Validator) (before : list WalkEntry) (entry : WalkEntry)
    (after : list WalkEntry) (ignoreTests : bool)
    (ignoredPackages : list string) (st : RunState) :
  Walk (walkFn ignoreTests ignoredPackages) before (v, [])
  = Returns (None, st) →
  weInfo entry = None →
  Validate v (before ++ entry :: after) ignoreTests ignoredPackages
  = Panics PanicNilDereference.
Proof.
  intros Hbefore Hinfo. unfold Validate. rewrite Walk_app, Hbefore.
  cbn [Walk]. unfold walkFn. rewrite Hinfo. reflexivity.
Qed.

Lemma Validate_nil_FileInfo_witness :
  Validate (NewValidator sampleAlias)
    ([] ++ {| wePath := "missing"; weInfo := None;
              weParse := ParseFailure "no such file or directory" |} :: [])
    false []
  = Panics PanicNilDereference.
Proof.
  eapply Validate_nil_FileInfo; reflexivity.
Defined.

Lemma importsLoop_all_ignored (ignoredPackages : list string)
    (importerMeta : LayerMetadata) (path : string) (imports : list string)
    (st : RunState) :
  (∀ imp, isIgnored imp ignoredPackages = true) →
  importsLoop ignoredPackages importerMeta path imports st = st.
Proof.
  intros Hignored. induction imports as [|imp imports IH]; [reflexivity|].
  cbn [importsLoop]. rewrite Hignored. exact IH.
Qed.

(** X9.  [strings.Contains] finds the empty string in every string, so an
    empty entry in [ignoredPackages] exempts every import: a run that
    returns then reports no violation and succeeds. *)
Theorem Validate_empty_ignored_package
    (v : Validator) (root : list WalkEntry) (ignoreTests : bool)
    (ignoredPackages : list string) (result : ValidateResult)
    (v' : Validator) :
  "" ∈ ignoredPackages →
  Validate v root ignoreTests ignoredPackages = Returns (result, v') →
  resErrors result = [] ∧ resOk result = true.
Proof.
  intros Hempty Hreturns.
  assert (∀ imp, isIgnored imp ignoredPackages = true) as Hignored.
  { intros imp. apply isIgnored_spec. exists "", "", imp.
    split; [exact Hempty|reflexivity]. }
  apply Validate_Returns in Hreturns. destruct Hreturns as [Hwalk ->].
  cbn [resErrors resOk].
  assert (resErrors result = []) as ->; [|split; reflexivity].
  apply (Walk_invariant ignoreTests ignoredPackages (λ st, st.2 = [])
           root (v, []) None (v', resErrors result));
    [|reflexivity|exact Hwalk].
  intros st entry walked st' _ Hst. unfold walkFn.
  destruct (weInfo entry) as [fi|]; [|discriminate].
  repeat (match goal with
          | |- context [if ?b then Returns (None, st) else _] => destruct b
          end; [intros [= _ <-]; exact Hst|]).
  destruct (weParse entry) as [imports|err]; [|discriminate].
  destruct (fileMetadata st.1 (wePath entry)) as [importerMeta v1].
  rewrite (importsLoop_all_ignored _ _ _ _ _ Hignored).
  case_decide; intros [= _ <-]; exact Hst.
Qed.

Lemma Validate_empty_ignored_package_witness :
  ∃ result v',
    Validate (NewValidator sampleAlias) (take 1 sampleTree) false [""]
    = Returns (result, v')
    ∧ resErrors result = [] ∧ resOk result = true.
Proof.
  eexists _, _. split; [vm_compute; reflexivity|].
  eapply (Validate_empty_ignored_package (NewValidator sampleAlias)
            (take 1 sampleTree) false [""]).
  - apply list_elem_of_here.
  - vm_compute. reflexivity.
Defined.

Lemma ParseLayerMetadata_empty (path : string) :
  ParseLayerMetadata path ∅ = zeroMetadata.
Proof.
  rewrite ParseLayerMetadata_walkFrom, walkFrom_classifyFrom.
  induction (reverse (GoStrings.Split path "/")) as [|segment above IH];
    [reflexivity|].
  cbn [classifyFrom]. unfold namedAliasOf at 1. rewrite lookup_empty.
  exact IH.
Qed.

(** X10.  With an empty alias table no file is classified: a run that
    returns reports no violation and succeeds, whatever the files import. *)
Theorem Validate_empty_alias
    (v : Validator) (root : list WalkEntry) (ignoreTests : bool)
    (ignoredPackages : list string) (result : ValidateResult)
    (v' : Validator) :
  reachable v →
  alias v = ∅ →
  Validate v root ignoreTests ignoredPackages = Returns (result, v') →
  resErrors result = [] ∧ resOk result = true.
Proof.
  intros Hreach Halias Hreturns.
  apply Validate_Returns in Hreturns. destruct Hreturns as [Hwalk ->].
  cbn [resErrors resOk].
  assert (resErrors result = []) as ->; [|split; reflexivity].
  apply (Walk_errors ignoreTests ignoredPackages v) in Hwalk;
    [|split; [exact Hreach|reflexivity]].
  cbn [snd app] in Hwalk. rewrite Hwalk, Halias. clear Hwalk.
  induction root as [|entry root IH]; [reflexivity|].
  cbn [mbind list_bind].
  fold (root ≫= fileErrors ∅ ignoreTests ignoredPackages). rewrite IH.
  rewrite app_nil_r. unfold fileErrors. rewrite ParseLayerMetadata_empty.
  destruct (discovered ignoreTests entry); [|reflexivity].
  destruct (weParse entry); [|reflexivity].
  rewrite decide_True by (left; reflexivity). reflexivity.
Qed.

Lemma Validate_empty_alias_witness :
  ∃ result v',
    Validate (NewValidator ∅) (take 1 sampleTree) false []
    = Returns (result, v')
    ∧ resErrors result = [] ∧ resOk result = true.
Proof.
  eexists _, _. split; [vm_compute; reflexivity|].
  eapply (Validate_empty_alias (NewValidator ∅) (take 1 sampleTree) false []).
  - apply reachable_new.
  - reflexivity.
  - vm_compute. reflexivity.
Defined.

(** * Further properties of the classifier *)

Lemma Split_nonempty (s : string) (sep : ascii) : GoStrings.Split s sep ≠ [].
Proof.
  destruct s as [|c s]; simpl; [discriminate|].
  destruct (decide (c = sep)); [discriminate|].
  destruct (GoStrings.Split s sep); discriminate.
Qed.

(** Splitting at a separator splits the list of segments. *)
Lemma Split_app (s1 s2 : string) (sep : ascii) :
  GoStrings.Split (s1 +:+ String sep s2) sep
  = GoStrings.Split s1 sep ++ GoStrings.Split s2 sep.
Proof.
  induction s1 as [|c s1 IH]; simpl.
  - destruct (decide (sep = sep)); [reflexivity|contradiction].
  - destruct (decide (c = sep)); rewrite IH; [reflexivity|].
    pose proof (Split_nonempty s1 sep).
    destruct (GoStrings.Split s1 sep); [contradiction|reflexivity].
Qed.

Lemma classifyFrom_found_below (recognise : string → option Layer)
    (segments above : list string) :
  mdModule (classifyFrom recognise segments) ≠ "" →
  classifyFrom recognise (segments ++ above)
  = classifyFrom recognise segments.
Proof.
  induction segments as [|segment segments IH]; cbn [classifyFrom app].
  - intros Hmodule. contradiction.
  - destruct (recognise segment) as [layer|]; [|exact IH].
    destruct segments; cbn; [contradiction|reflexivity].
Qed.

Lemma classifyFrom_unrecognised (recognise : string → option Layer)
    (segments above : list string) :
  (∀ segment, segment ∈ segments → recognise segment = None) →
  classifyFrom recognise (segments ++ above) = classifyFrom recognise above.
Proof.
  induction segments as [|segment segments IH]; intros Hnone;
    [reflexivity|].
  cbn [classifyFrom app]. rewrite (Hnone segment) by apply list_elem_of_here.
  apply IH. intros other Hin. apply Hnone. right. exact Hin.
Qed.

(** X11.  Once a path is classified with a Module, the directories above
    do not matter: the path below any directory has the same Layer and
    Module. *)
Theorem ParseLayerMetadata_under_directory
    (dir path : string) (alias : gmap string Layer) :
  mdModule (ParseLayerMetadata path alias) ≠ "" →
  ParseLayerMetadata (dir +:+ "/" +:+ path) alias
  = ParseLayerMetadata path alias.
Proof.
  rewrite !ParseLayerMetadata_walkFrom, !walkFrom_classifyFrom.
  intros Hmodule. change (dir +:+ "/" +:+ path) with (dir +:+ String "/" path).
  rewrite Split_app, reverse_app.
  apply classifyFrom_found_below, Hmodule.
Qed.

Lemma ParseLayerMetadata_under_directory_witness :
  ParseLayerMetadata ("/home/dev/src" +:+ "/" +:+ "modA/domain/user.go")
    sampleAlias
  = ParseLayerMetadata "modA/domain/user.go" sampleAlias.
Proof.
  apply ParseLayerMetadata_under_directory. vm_compute. discriminate.
Defined.

(** X12.  Segments below a directory that are no alias with a Layer leave
    the classification to the directory: a file whose name is no alias is
    classified as the package path of its directory. *)
Theorem ParseLayerMetadata_of_directory
    (dir below : string) (alias : gmap string Layer) :
  (∀ segment layer,
     segment ∈ GoStrings.Split below "/" →
     alias !! segment = Some layer → layer = "") →
  ParseLayerMetadata (dir +:+ "/" +:+ below) alias
  = ParseLayerMetadata dir alias.
Proof.
  intros Hbelow.
  rewrite !ParseLayerMetadata_walkFrom, !walkFrom_classifyFrom.
  change (dir +:+ "/" +:+ below) with (dir +:+ String "/" below).
  rewrite Split_app, reverse_app.
  apply classifyFrom_unrecognised. intros segment Hin.
  rewrite elem_of_reverse in Hin. unfold namedAliasOf.
  destruct (alias !! segment) as [layer|] eqn:Hlookup; [|reflexivity].
  rewrite (Hbelow segment layer Hin Hlookup). reflexivity.
Qed.

Lemma ParseLayerMetadata_of_directory_witness :
  ParseLayerMetadata ("modA/domain" +:+ "/" +:+ "user.go") sampleAlias
  = ParseLayerMetadata "modA/domain" sampleAlias.
Proof.
  apply ParseLayerMetadata_of_directory.
  intros segment layer Hin. apply list_elem_of_singleton in Hin. subst segment.
  vm_compute. discriminate.
Defined.

Lemma classifyFrom_provenance (alias : gmap string Layer)
    (segments : list string) :
  (mdLayer (classifyFrom (namedAliasOf alias) segments) = ""
   ∨ ∃ segment,
       segment ∈ segments
       ∧ alias !! segment
         = Some (mdLayer (classifyFrom (namedAliasOf alias) segments)))
  ∧ (mdModule (classifyFrom (namedAliasOf alias) segments) = ""
     ∨ mdModule (classifyFrom (namedAliasOf alias) segments) ∈ segments).
Proof.
  induction segments as [|segment above [IHlayer IHmodule]].
  - split; left; reflexivity.
  - cbn [classifyFrom]. unfold namedAliasOf at 1 3 5 7.
    destruct (alias !! segment) as [layer|] eqn:Hlookup.
    + case_decide as Hlayer.
      * split.
        -- destruct IHlayer as [Hempty|[found [Hin Hfound]]]; [left; exact Hempty|].
           right. exists found. split; [right; exact Hin|exact Hfound].
        -- destruct IHmodule as [Hempty|Hin]; [left; exact Hempty|].
           right. right. exact Hin.
      * cbn. split.
        -- right. exists segment. split; [left|exact Hlookup].
        -- destruct above as [|module above]; [left; reflexivity|].
           right. right. left.
    + split.
      * destruct IHlayer as [Hempty|[found [Hin Hfound]]]; [left; exact Hempty|].
        right. exists found. split; [right; exact Hin|exact Hfound].
      * destruct IHmodule as [Hempty|Hin]; [left; exact Hempty|].
        right. right. exact Hin.
Qed.

(** X13.  The Layer that [ParseLayerMetadata] returns is empty or the alias
    table's value for a whole segment of the path, and the Module is empty
    or a segment of the path: nothing is matched on a part of a segment and
    nothing is made up. *)
Theorem ParseLayerMetadata_provenance
    (path : string) (alias : gmap string Layer) :
  (mdLayer (ParseLayerMetadata path alias) = ""
   ∨ ∃ segment,
       segment ∈ GoStrings.Split path "/"
       ∧ alias !! segment = Some (mdLayer (ParseLayerMetadata path alias)))
  ∧ (mdModule (ParseLayerMetadata path alias) = ""
     ∨ mdModule (ParseLayerMetadata path alias) ∈ GoStrings.Split path "/").
Proof.
  rewrite ParseLayerMetadata_walkFrom, walkFrom_classifyFrom.
  destruct (classifyFrom_provenance alias
              (reverse (GoStrings.Split path "/"))) as [Hlayer Hmodule].
  split.
  - destruct Hlayer as [Hempty|[segment [Hin Hfound]]]; [left; exact Hempty|].
    right. exists segment. split; [|exact Hfound].
    rewrite elem_of_reverse in Hin. exact Hin.
  - destruct Hmodule as [Hempty|Hin]; [left; exact Hempty|].
    right. rewrite elem_of_reverse in Hin. exact Hin.
Qed.

(** X14.  A run leaves the validator fit for the next one: running again
    over the same tree, with the cache the first run filled, reports what
    the first run reported. *)
Theorem Validate_again
    (v : Validator) (root : list WalkEntry) (ignoreTests : bool)
    (ignoredPackages : list string) (result : ValidateResult)
    (v' : Validator) :
  reachable v →
  Validate v root ignoreTests ignoredPackages = Returns (result, v') →
  resultOf (Validate v' root ignoreTests ignoredPackages) = Returns result.
Proof.
  intros Hreach Hreturns.
  assert (runInv v (v', resErrors result)) as [Hreach' Halias].
  { apply Validate_Returns in Hreturns. destruct Hreturns as [Hwalk _].
    apply (Walk_runInv ignoreTests ignoredPackages v root (v, []) None);
      [|exact Hwalk].
    split; [exact Hreach|reflexivity]. }
  rewrite (Validate_same_result v' v root ignoreTests ignoredPackages
             Hreach' Hreach Halias).
  rewrite Hreturns. reflexivity.
Qed.

Lemma Validate_again_witness :
  ∃ result v',
    Validate (NewValidator sampleAlias) (take 1 sampleTree) false []
    = Returns (result, v')
    ∧ resultOf (Validate v' (take 1 sampleTree) false []) = Returns result.
Proof.
  eexists _, _. split; [vm_compute; reflexivity|].
  eapply (Validate_again (NewValidator sampleAlias) (take 1 sampleTree)
            false []).
  - apply reachable_new.
  - vm_compute. reflexivity.
Defined.

(** * Further properties of the decision rule *)

Lemma hierarchyOf_unknown (layer : Layer) :
  layersHierarchy !! layer = None → hierarchyOf layer = 0.
Proof. intros Hnone. unfold hierarchyOf. rewrite Hnone. reflexivity. Qed.

Lemma hierarchyOf_known (layer : Layer) :
  is_Some (layersHierarchy !! layer) ↔ 1 ≤ hierarchyOf layer.
Proof.
  unfold hierarchyOf, layersHierarchy.
  repeat (rewrite lookup_insert; case_decide;
          [cbn; split; [lia|eauto]|]).
  rewrite lookup_empty. cbn. split; [intros [w Hw]; discriminate|lia].
Qed.

Lemma hierarchyOf_above_domain (layer : Layer) :
  hierarchyOf layer > 1
  ↔ layer = LayerApplication ∨ layer = LayerInterfaces
    ∨ layer = LayerInfrastructure.
Proof.
  unfold hierarchyOf, layersHierarchy.
  rewrite lookup_insert. case_decide as Hdomain.
  { subst layer. cbn. split; [lia|]. intros [H|[H|H]]; discriminate. }
  rewrite lookup_insert. case_decide as Happlication.
  { subst layer. cbn. split; [auto|lia]. }
  rewrite lookup_insert. case_decide as Hinterfaces.
  { subst layer. cbn. split; [auto|lia]. }
  rewrite lookup_insert. case_decide as Hinfrastructure.
  { subst layer. cbn. split; [auto|lia]. }
  rewrite lookup_empty. cbn. split; [lia|].
  intros [H|[H|H]]; congruence.
Qed.

(** X15.  For a file of the Infrastructure layer the only violations are
    imports from another module whose Layer is neither empty nor Interfaces:
    within its own module it may import every layer. *)
Theorem validateImport_infrastructure_importer
    (v : Validator) (imp : string) (importerMeta : LayerMetadata)
    (path : string) :
  let importMeta := (fileMetadata v (importPathOf imp)).1 in
  mdLayer importerMeta = LayerInfrastructure →
  (validateImport v imp importerMeta path).1 ≠ []
  ↔ mdModule importMeta ≠ mdModule importerMeta
    ∧ mdLayer importMeta ≠ "" ∧ mdLayer importMeta ≠ LayerInterfaces.
Proof.
  intros importMeta Hinfra. rewrite validateImport_unfold. cbn [fst].
  fold importMeta. unfold checkImport. rewrite Hinfra.
  pose proof (hierarchyOf_range (mdLayer importMeta)) as Hrange.
  destruct layersHierarchy_weights as (_ & _ & _ & Hweight).
  repeat case_decide; cbn [app]; split; intros; try done; try lia; try tauto.
Qed.

Lemma validateImport_infrastructure_importer_witness :
  let v := NewValidator sampleAlias in
  let imp := literal "modB/domain/entity" in
  let importerMeta := ParseLayerMetadata "modA/infra/gateway.go" sampleAlias in
  let importMeta := (fileMetadata v (importPathOf imp)).1 in
  (validateImport v imp importerMeta "modA/infra/gateway.go").1 ≠ []
  ↔ mdModule importMeta ≠ mdModule importerMeta
    ∧ mdLayer importMeta ≠ "" ∧ mdLayer importMeta ≠ LayerInterfaces.
Proof.
  intros v imp importerMeta.
  apply (validateImport_infrastructure_importer v imp importerMeta
           "modA/infra/gateway.go").
  vm_compute. reflexivity.
Defined.

(** X16.  For a file of the Domain layer the violations are the imports of
    the Application, Interfaces or Infrastructure layer of its own module
    and the imports of any non-empty Layer of another module. *)
Theorem validateImport_domain_importer
    (v : Validator) (imp : string) (importerMeta : LayerMetadata)
    (path : string) :
  let importMeta := (fileMetadata v (importPathOf imp)).1 in
  mdLayer importerMeta = LayerDomain →
  (validateImport v imp importerMeta path).1 ≠ []
  ↔ (mdModule importMeta = mdModule importerMeta
     ∧ (mdLayer importMeta = LayerApplication
        ∨ mdLayer importMeta = LayerInterfaces
        ∨ mdLayer importMeta = LayerInfrastructure))
    ∨ (mdModule importMeta ≠ mdModule importerMeta
       ∧ mdLayer importMeta ≠ "").
Proof.
  intros importMeta Hdomain. rewrite validateImport_unfold. cbn [fst].
  fold importMeta. unfold checkImport. rewrite Hdomain.
  destruct layersHierarchy_weights as (Hweight & _).
  pose proof (hierarchyOf_above_domain (mdLayer importMeta)) as Habove.
  rewrite Hweight.
  assert (LayerDomain ≠ LayerInfrastructure) as Hne by discriminate.
  repeat case_decide; cbn [app]; split; intros; try done; try tauto.
Qed.

Lemma validateImport_domain_importer_witness :
  let v := NewValidator sampleAlias in
  let imp := literal "modA/infra/db" in
  let importerMeta := ParseLayerMetadata "modA/domain/user.go" sampleAlias in
  let importMeta := (fileMetadata v (importPathOf imp)).1 in
  (validateImport v imp importerMeta "modA/domain/user.go").1 ≠ []
  ↔ (mdModule importMeta = mdModule importerMeta
     ∧ (mdLayer importMeta = LayerApplication
        ∨ mdLayer importMeta = LayerInterfaces
        ∨ mdLayer importMeta = LayerInfrastructure))
    ∨ (mdModule importMeta ≠ mdModule importerMeta
       ∧ mdLayer importMeta ≠ "").
Proof.
  intros v imp importerMeta.
  apply (validateImport_domain_importer v imp importerMeta
           "modA/domain/user.go").
  vm_compute. reflexivity.
Defined.

(** X17.  A Layer that is not a key of [layersHierarchy] weighs 0.  Within
    one module an import of such a Layer is never a violation, and a file of
    such a Layer violates exactly when it imports one of the four layers of
    the table. *)
Theorem validateImport_unknown_layer
    (v : Validator) (imp : string) (importerMeta : LayerMetadata)
    (path : string) :
  let importMeta := (fileMetadata v (importPathOf imp)).1 in
  mdModule importMeta = mdModule importerMeta →
  (layersHierarchy !! mdLayer importMeta = None →
   (validateImport v imp importerMeta path).1 = [])
  ∧ (layersHierarchy !! mdLayer importerMeta = None →
     ((validateImport v imp importerMeta path).1 ≠ []
      ↔ is_Some (layersHierarchy !! mdLayer importMeta))).
Proof.
  intros importMeta Hsame. rewrite validateImport_unfold. cbn [fst].
  fold importMeta. rewrite (checkImport_same_module _ _ _ _ Hsame).
  pose proof (hierarchyOf_range (mdLayer importerMeta)) as Hrange.
  split.
  - intros Hunknown. rewrite (hierarchyOf_unknown _ Hunknown).
    rewrite decide_False by lia. reflexivity.
  - intros Hunknown. rewrite (hierarchyOf_unknown _ Hunknown).
    rewrite hierarchyOf_known.
    case_decide; split; intros; (done || lia).
Qed.

Lemma validateImport_unknown_layer_witness :
  let v := NewValidator (<["ui" := "presentation"]> sampleAlias) in
  let imp := literal "modA/domain/user" in
  let importerMeta :=
    ParseLayerMetadata "modA/ui/page.go" (<["ui" := "presentation"]> sampleAlias) in
  let importMeta := (fileMetadata v (importPathOf imp)).1 in
  (layersHierarchy !! mdLayer importMeta = None →
   (validateImport v imp importerMeta "modA/ui/page.go").1 = [])
  ∧ (layersHierarchy !! mdLayer importerMeta = None →
     ((validateImport v imp importerMeta "modA/ui/page.go").1 ≠ []
      ↔ is_Some (layersHierarchy !! mdLayer importMeta))).
Proof.
  intros v imp importerMeta.
  apply (validateImport_unknown_layer v imp importerMeta "modA/ui/page.go").
  vm_compute. reflexivity.
Defined.

(** * The import literal *)

Lemma append_String (c : ascii) (s1 s2 : string) :
  String c s1 +:+ s2 = String c (s1 +:+ s2).
Proof. reflexivity. Qed.

Lemma length_append (s1 s2 : string) :
  String.length (s1 +:+ s2) = (String.length s1 + String.length s2)%nat.
Proof.
  induction s1 as [|c s1 IH]; [reflexivity|].
  rewrite append_String. cbn [String.length]. rewrite IH. reflexivity.
Qed.

Lemma append_assoc (s1 s2 s3 : string) :
  (s1 +:+ s2) +:+ s3 = s1 +:+ s2 +:+ s3.
Proof.
  induction s1 as [|c s1 IH]; [reflexivity|].
  rewrite !append_String, IH. reflexivity.
Qed.

Lemma sliceFrom_append (s1 s2 : string) :
  GoStrings.sliceFrom (String.length s1) (s1 +:+ s2) = s2.
Proof. induction s1 as [|c s1 IH]; [destruct s2; reflexivity|exact IH]. Qed.

Lemma sliceTo_append (s1 s2 : string) :
  GoStrings.sliceTo (String.length s1) (s1 +:+ s2) = s1.
Proof.
  induction s1 as [|c s1 IH]; [destruct s2; reflexivity|].
  rewrite append_String. cbn [String.length GoStrings.sliceTo].
  rewrite IH. reflexivity.
Qed.

(** [TrimSuffix] and [TrimPrefix] undo an append. *)
Lemma TrimSuffix_append (s suffix : string) :
  GoStrings.TrimSuffix (s +:+ suffix) suffix = s.
Proof.
  unfold GoStrings.TrimSuffix, GoStrings.HasSuffix. rewrite length_append.
  replace (String.length s + String.length suffix - String.length suffix)%nat
    with (String.length s) by lia.
  rewrite sliceFrom_append, sliceTo_append.
  rewrite bool_decide_eq_true_2 by lia.
  rewrite bool_decide_eq_true_2 by reflexivity. reflexivity.
Qed.

Lemma TrimPrefix_append (prefix s : string) :
  GoStrings.TrimPrefix (prefix +:+ s) prefix = s.
Proof.
  unfold GoStrings.TrimPrefix.
  assert (GoStrings.HasPrefix (prefix +:+ s) prefix = true) as ->
    by (apply HasPrefix_spec; eauto).
  apply sliceFrom_append.
Qed.

(** X18.  [validateImport] classifies the import path itself: stripping the
    quotes of the literal of an import gives back its path, whatever the
    path contains. *)
Theorem importPathOf_literal (importPath : string) :
  importPathOf (literal importPath) = importPath.
Proof.
  unfold importPathOf, literal. rewrite <- append_assoc.
  rewrite TrimSuffix_append. apply TrimPrefix_append.
Qed.

(** * Ignoring more and returning at all *)

Lemma isIgnored_mono (imp : string) (ignored1 ignored2 : list string) :
  (∀ ignoredPackage, ignoredPackage ∈ ignored1 → ignoredPackage ∈ ignored2) →
  isIgnored imp ignored1 = true → isIgnored imp ignored2 = true.
Proof.
  intros Hsub. rewrite !isIgnored_spec.
  intros [ignoredPackage [pre [post [Hin Himp]]]].
  exists ignoredPackage, pre, post. split; [apply Hsub, Hin|exact Himp].
Qed.

Lemma discovered_mono (tests1 tests2 : bool) (entry : WalkEntry) :
  (tests1 = true → tests2 = true) →
  discovered tests2 entry = true → discovered tests1 entry = true.
Proof.
  unfold discovered. destruct (weInfo entry) as [fi|]; [|done].
  intros Hmono. rewrite !andb_true_iff, !negb_true_iff, !andb_false_iff.
  intros [[[[Hdir Hgo] Htest] Hvendor] Hhidden]. repeat split; try assumption.
  destruct tests1; [|left; reflexivity].
  rewrite (Hmono eq_refl) in Htest. destruct Htest; [discriminate|].
  right. assumption.
Qed.

Lemma bind_sublist {A B : Type} (f g : A → list B) (l : list A) :
  (∀ x, f x `sublist_of` g x) → l ≫= f `sublist_of` l ≫= g.
Proof.
  intros Hfg. induction l as [|x l IH]; [constructor|].
  cbn [mbind list_bind]. apply sublist_app; [apply Hfg|exact IH].
Qed.

Lemma fileErrors_sublist (alias : gmap string Layer) (tests1 tests2 : bool)
    (ignored1 ignored2 : list string) (entry : WalkEntry) :
  (tests1 = true → tests2 = true) →
  (∀ ignoredPackage, ignoredPackage ∈ ignored1 → ignoredPackage ∈ ignored2) →
  fileErrors alias tests2 ignored2 entry
  `sublist_of` fileErrors alias tests1 ignored1 entry.
Proof.
  intros Htests Hignored. unfold fileErrors.
  destruct (discovered tests2 entry) eqn:Hdiscovered; [|apply sublist_nil_l].
  rewrite (discovered_mono _ _ _ Htests Hdiscovered).
  destruct (weParse entry) as [imports|err]; [|reflexivity].
  case_decide; [reflexivity|].
  apply bind_sublist. intros imp. unfold importErrors.
  destruct (isIgnored imp ignored1) eqn:Himp.
  - rewrite (isIgnored_mono _ _ _ Hignored Himp). reflexivity.
  - destruct (isIgnored imp ignored2); [apply sublist_nil_l|reflexivity].
Qed.

(** X19.  Ignoring more never adds a violation: with more ignored packages,
    or with test files ignored, the violations of a run are a sublist, in
    the same order, of those of the run that ignores less. *)
Theorem Validate_ignoring_more
    (v : Validator) (root : list WalkEntry) (tests1 tests2 : bool)
    (ignored1 ignored2 : list string) (result1 result2 : ValidateResult)
    (v1 v2 : Validator) :
  reachable v →
  (tests1 = true → tests2 = true) →
  (∀ ignoredPackage, ignoredPackage ∈ ignored1 → ignoredPackage ∈ ignored2) →
  Validate v root tests1 ignored1 = Returns (result1, v1) →
  Validate v root tests2 ignored2 = Returns (result2, v2) →
  resErrors result2 `sublist_of` resErrors result1.
Proof.
  intros Hreach Htests Hignored Hrun1 Hrun2.
  assert (runInv v (v, [])) as Hinv by (split; [exact Hreach|reflexivity]).
  apply Validate_Returns in Hrun1. destruct Hrun1 as [Hwalk1 _].
  apply Validate_Returns in Hrun2. destruct Hrun2 as [Hwalk2 _].
  apply (Walk_errors _ _ v _ _ _ _ Hinv) in Hwalk1.
  apply (Walk_errors _ _ v _ _ _ _ Hinv) in Hwalk2.
  cbn [snd app] in Hwalk1, Hwalk2. rewrite Hwalk1, Hwalk2.
  apply bind_sublist. intros entry.
  apply fileErrors_sublist; assumption.
Qed.

Lemma Validate_ignoring_more_witness :
  ∃ result1 result2 v1 v2,
    Validate (NewValidator sampleAlias) (take 1 sampleTree) false []
    = Returns (result1, v1)
    ∧ Validate (NewValidator sampleAlias) (take 1 sampleTree) true ["infra"]
      = Returns (result2, v2)
    ∧ resErrors result2 `sublist_of` resErrors result1.
Proof.
  eexists _, _, _, _.
  split; [vm_compute; reflexivity|]. split; [vm_compute; reflexivity|].
  eapply (Validate_ignoring_more (NewValidator sampleAlias)
            (take 1 sampleTree) false true [] ["infra"]).
  - apply reachable_new.
  - reflexivity.
  - intros ignoredPackage Hin. inversion Hin.
  - vm_compute. reflexivity.
  - vm_compute. reflexivity.
Defined.

Lemma walkFn_returns (ignoreTests : bool) (ignoredPackages : list string)
    (st : RunState) (entry : WalkEntry) :
  (∃ result st',
     walkFn ignoreTests ignoredPackages st entry = Returns (result, st'))
  ↔ is_Some (weInfo entry)
    ∧ (discovered ignoreTests entry = true →
       ∃ imports, weParse entry = ParsedImports imports).
Proof.
  destruct (discovered ignoreTests entry) eqn:Hdiscovered.
  - rewrite walkFn_discovered by exact Hdiscovered.
    assert (is_Some (weInfo entry)) as Hinfo.
    { unfold discovered in Hdiscovered.
      destruct (weInfo entry); [eauto|discriminate]. }
    destruct (weParse entry) as [imports|err].
    + split; [intros _; split; [exact Hinfo|eauto]|intros _].
      cbn zeta. case_decide; eauto.
    + split; [intros [result [st' Hreturns]]; discriminate|].
      intros [_ Hparsed]. destruct (Hparsed eq_refl) as [imports Himports].
      discriminate.
  - split.
    + intros [result [st' Hreturns]]. split; [|discriminate].
      unfold walkFn in Hreturns.
      destruct (weInfo entry); [eauto|discriminate].
    + intros [Hinfo _]. exists None, st.
      apply walkFn_stopped; assumption.
Qed.

(** X20.  [Validate] returns exactly when every entry of the walk comes
    with its [FileInfo] and every file that passes the guards can be parsed
    for its imports; otherwise it panics. *)
Theorem Validate_returns_iff
    (v : Validator) (root : list WalkEntry) (ignoreTests : bool)
    (ignoredPackages : list string) :
  (∃ result v',
     Validate v root ignoreTests ignoredPackages = Returns (result, v'))
  ↔ ∀ entry, entry ∈ root →
      is_Some (weInfo entry)
      ∧ (discovered ignoreTests entry = true →
         ∃ imports, weParse entry = ParsedImports imports).
Proof.
  assert (∀ st,
            (∃ walked st',
               Walk (walkFn ignoreTests ignoredPackages) root st
               = Returns (walked, st'))
            ↔ ∀ entry, entry ∈ root →
                is_Some (weInfo entry)
                ∧ (discovered ignoreTests entry = true →
                   ∃ imports, weParse entry = ParsedImports imports))
    as Hwalk.
  { induction root as [|entry root IH]; intros st.
    - split; [intros _ entry Hin; inversion Hin|intros _; cbn; eauto].
    - cbn [Walk]. split.
      + intros [walked [st' Hreturns]] other Hin.
        destruct (walkFn ignoreTests ignoredPackages st entry)
          as [[[err|] st1]|value] eqn:Hentry; [| |discriminate].
        * apply walkFn_nil in Hentry. discriminate.
        * apply elem_of_cons in Hin. destruct Hin as [->|Hin].
          -- apply (walkFn_returns ignoreTests ignoredPackages st). eauto.
          -- apply (IH st1); eauto.
      + intros Hall.
        destruct (proj2 (walkFn_returns ignoreTests ignoredPackages st entry))
          as [walked [st1 Hentry]]; [apply Hall; left|].
        rewrite Hentry. rewrite (walkFn_nil _ _ _ _ _ _ Hentry).
        apply IH. intros other Hin. apply Hall. right. exact Hin. }
  rewrite <- (Hwalk (v, [])). unfold Validate. split.
  - intros [result [v' Hreturns]].
    destruct (Walk (walkFn ignoreTests ignoredPackages) root (v, []))
      as [[walked st']|value]; [eauto|discriminate].
  - intros [walked [[v' errors] ->]]. destruct walked; eauto.
Qed.
